(** * chat_server_select.c: the select() relay server

    A shallow embedding of the connection table, the broadcast routine, the
    teardown and the multiplexing loop of [chat_server_select.c]. The
    answers of the operating system to select, accept, recv and send come
    from an oracle indexed by the number of system calls made so far; the
    characters that standard input will deliver are part of the state.

    Conventions:
    - descriptors, byte counts and return values are [Z], as the C [int] and
      [ssize_t] values they stand for (no arithmetic in the program comes
      near the limits of the types);
    - [client_socket] is the global array of [MAX_CLIENTS] descriptors, a
      [list Z] read and written by index;
    - every system call appends an [event] to [trace]; every [printf] and
      [perror] appends a [log] to [out]. *)

From Stdlib Require Import ZArith List Bool Ascii String Lia.
From Stdlib Require Import Init.Byte.
From stdpp Require Import base list.
Import ListNotations.

Local Open Scope Z_scope.

(** ** Constants of the source *)

Definition MAX_CLIENTS : nat := 10.
Definition BUF_SIZE : Z := 256.
Definition BACKLOG : Z := 10.
Definition STDIN_FILENO : Z := 0.

(** [EINTR] comes from <errno.h>; its value on Linux. *)
Definition EINTR : Z := 4.

(** The three bytes of the literal ["ACK"]. *)
Definition ACK : list byte := [x41; x43; x4b].

(** ** What the program does to the outside world *)

Inductive event : Type :=
| Select (nfds : Z)
| Fgets (size : Z)
| Accept (lfd : Z) (r : Z)
| Recv (fd : Z) (size : Z) (r : Z)
| Send (fd : Z) (payload : list byte) (r : Z)
| Close (fd : Z)
| StoreOutOfBounds (idx : Z)
| Exit (code : Z).

(** One constructor for each [printf] and [perror] of the modelled
    functions. *)
Inductive log : Type :=
| LogShutdownInitiated
| LogClosedListener (fd : Z)
| LogClosedClient (fd : Z)
| LogCleanupComplete
| LogBroadcastCalled
| LogHasBytes (len : Z)
| LogSendBytes (r : Z)
| PerrorSend
| LogSendWarning (r len : Z)
| LogSentSuccess (len : Z)
| LogPopulated (i : nat) (fd : Z)
| LogWaiting (nfds : Z)
| PerrorSelect
| LogQuitReceived
| LogCommandIgnored
| LogAboutToAccept
| LogInsideAccept
| PerrorAccept
| LogNewConnection (fd : Z)
| LogAssigned (i : nat)
| LogRecvSuccess (r : Z)
| LogListenerIs (fd : Z)
| PerrorListener.

(** ** The answers of the operating system *)

Inductive select_outcome : Type :=
| SelReady (ready : list Z)      (* the descriptors that are readable *)
| SelError (e : Z).              (* select returns -1 and sets errno to e *)

Inductive recv_outcome : Type :=
| RecvError                      (* recv returns -1 *)
| RecvBytes (data : list byte).  (* bytes pending on the connection; none: peer closed *)

Record oracle : Type := mkOracle {
  select_res : nat -> select_outcome;
  accept_res : nat -> Z;         (* the new descriptor, negative: accept fails *)
  recv_res : nat -> recv_outcome;
  send_res : nat -> Z            (* bytes the transport takes, negative: send fails *)
}.

(** ** Program state *)

Record state : Type := mkState {
  client_socket : list Z;        (* int client_socket[MAX_CLIENTS]; 0 marks a free slot *)
  listener_sfd : Z;              (* int listener_sfd *)
  max_fd : Z;                    (* main's max_fd, kept from one turn to the next *)
  errno : Z;
  stdin : string;                (* characters not yet read from standard input *)
  exited : option Z;             (* Some c once exit(c) has been called *)
  clock : nat;                   (* system calls made so far *)
  trace : list event;
  out : list log
}.

Definition set_client_socket (cs : list Z) (s : state) : state :=
  mkState cs (listener_sfd s) (max_fd s) (errno s) (stdin s) (exited s)
          (clock s) (trace s) (out s).

Definition set_listener_sfd (fd : Z) (s : state) : state :=
  mkState (client_socket s) fd (max_fd s) (errno s) (stdin s) (exited s)
          (clock s) (trace s) (out s).

Definition set_max_fd (m : Z) (s : state) : state :=
  mkState (client_socket s) (listener_sfd s) m (errno s) (stdin s) (exited s)
          (clock s) (trace s) (out s).

Definition set_errno (e : Z) (s : state) : state :=
  mkState (client_socket s) (listener_sfd s) (max_fd s) e (stdin s) (exited s)
          (clock s) (trace s) (out s).

Definition set_stdin (i : string) (s : state) : state :=
  mkState (client_socket s) (listener_sfd s) (max_fd s) (errno s) i (exited s)
          (clock s) (trace s) (out s).

Definition set_exited (c : Z) (s : state) : state :=
  mkState (client_socket s) (listener_sfd s) (max_fd s) (errno s) (stdin s)
          (Some c) (clock s) (trace s) (out s).

Definition record (e : event) (s : state) : state :=
  mkState (client_socket s) (listener_sfd s) (max_fd s) (errno s) (stdin s)
          (exited s) (clock s) (trace s ++ [e]) (out s).

Definition tick (s : state) : state :=
  mkState (client_socket s) (listener_sfd s) (max_fd s) (errno s) (stdin s)
          (exited s) (S (clock s)) (trace s) (out s).

(** A system call: one tick of the clock and one event. *)
Definition syscall (e : event) (s : state) : state := tick (record e s).

Definition emit (l : log) (s : state) : state :=
  mkState (client_socket s) (listener_sfd s) (max_fd s) (errno s) (stdin s)
          (exited s) (clock s) (trace s) (out s ++ [l]).

(** ** A state monad for the C statements *)

Definition M (A : Type) : Type := state -> A * state.

Definition ret {A : Type} (a : A) : M A := fun s => (a, s).

Definition bind {A B : Type} (m : M A) (k : A -> M B) : M B :=
  fun s => let (a, s') := m s in k a s'.

Definition gets {A : Type} (f : state -> A) : M A := fun s => (f s, s).

Definition modify (f : state -> state) : M unit := fun s => (tt, f s).

Definition exec {A : Type} (m : M A) (s : state) : state := snd (m s).

Declare Scope c_scope.
Delimit Scope c_scope with C.
Notation "x <- m ;; k" := (bind m (fun x => k))
  (at level 100, m at next level, right associativity) : c_scope.
Notation "m ;; k" := (bind m (fun _ => k))
  (at level 100, right associativity) : c_scope.
Local Open Scope c_scope.

Definition printf (l : log) : M unit := modify (emit l).

(** [client_socket[i]] for an index inside the array. *)
Definition slot (cs : list Z) (i : nat) : Z := default 0 (cs !! i).

Definition read_slot (i : nat) : M Z := gets (fun s => slot (client_socket s) i).

(** [client_socket[i] = v;] *)
Definition write_slot (i : nat) (v : Z) : M unit :=
  modify (fun s => set_client_socket (<[i:=v]> (client_socket s)) s).

(** ** fd_set: the descriptors that are set, as a list

    Descriptors stay below FD_SETSIZE, as the macros require. *)

Definition fd_set : Type := list Z.
Definition FD_ZERO : fd_set := [].
Definition FD_SET (fd : Z) (fds : fd_set) : fd_set := fds ++ [fd].
Definition FD_ISSET (fd : Z) (fds : fd_set) : bool := existsb (Z.eqb fd) fds.

(** ** System calls *)

Section Syscalls.

Variable o : oracle.

(** [close(fd)]. *)
Definition sys_close (fd : Z) : M unit := modify (syscall (Close fd)).

(** [send(fd, buf, len, 0)]: the transport takes at most [len] bytes of
    [buf]; the event keeps the bytes the call was given. Only calls that
    return have an outcome here: with flags 0, a [send] to a peer that has
    closed raises SIGPIPE, whose default action ends the process from
    outside. *)
Definition send_result (t : nat) (len : Z) : Z :=
  let a := send_res o t in
  if a <? 0 then -1 else Z.min a len.

Definition sys_send (fd : Z) (buf : list byte) (len : Z) : M Z :=
  fun s =>
    let r := send_result (clock s) len in
    (r, syscall (Send fd (firstn (Z.to_nat len) buf) r) s).

(** [recv(fd, buf, size, 0)]: at most [size] of the pending bytes are
    copied to the front of [buf]; 0 when the peer has closed. *)
Definition recv_count (a : recv_outcome) (size : Z) : Z :=
  match a with
  | RecvError => -1
  | RecvBytes data => Z.of_nat (length (firstn (Z.to_nat size) data))
  end.

Definition recv_fill (a : recv_outcome) (size : Z) (buf : list byte) : list byte :=
  match a with
  | RecvError => buf
  | RecvBytes data =>
      let got := firstn (Z.to_nat size) data in
      got ++ skipn (length got) buf
  end.

Definition sys_recv (fd : Z) (buf : list byte) (size : Z) : M (Z * list byte) :=
  fun s =>
    let a := recv_res o (clock s) in
    let r := recv_count a size in
    ((r, recv_fill a size buf), syscall (Recv fd size r) s).

(** [accept(lfd, ...)]. *)
Definition sys_accept (lfd : Z) : M Z :=
  fun s =>
    let a := accept_res o (clock s) in
    let r := if a <? 0 then -1 else a in
    (r, syscall (Accept lfd r) s).

(** [select(nfds, &readfds, NULL, NULL, NULL)]: on success the set keeps
    the readable descriptors only; on failure the set is left as it was
    (POSIX) and errno is written. *)
Definition sys_select (nfds : Z) (readfds : fd_set) : M (Z * fd_set) :=
  fun s =>
    match select_res o (clock s) with
    | SelReady ready =>
        let fds := List.filter (fun fd => FD_ISSET fd ready) readfds in
        ((Z.of_nat (length fds), fds), syscall (Select nfds) s)
    | SelError e => ((-1, readfds), set_errno e (syscall (Select nfds) s))
    end.

End Syscalls.

(** ** The C library functions the program calls *)

Definition NUL : ascii := "000"%char.
Definition newline : ascii := "010"%char.

Definition char_at (s : string) : ascii :=
  match s with
  | EmptyString => NUL
  | String c _ => c
  end.

Definition advance (s : string) : string :=
  match s with
  | EmptyString => EmptyString
  | String _ t => t
  end.

Definition uchar (c : ascii) : Z := Z.of_nat (nat_of_ascii c).

(** [strncmp(s1, s2, n)] on NUL-terminated strings: the difference of the
    first two characters that differ among the first [n], 0 when there is
    none before a terminator. *)
Fixpoint strncmp (s1 s2 : string) (n : nat) : Z :=
  match n with
  | O => 0
  | S n' =>
      let c1 := char_at s1 in
      let c2 := char_at s2 in
      if negb (Ascii.eqb c1 c2) then uchar c1 - uchar c2
      else if Ascii.eqb c1 NUL then 0
      else strncmp (advance s1) (advance s2) n'
  end.

(** What [fgets] moves from the stream to the buffer: at most [n]
    characters, ending after the first newline. *)
Fixpoint fgets_take (n : nat) (input : string) : string * string :=
  match n with
  | O => (EmptyString, input)
  | S n' =>
      match input with
      | EmptyString => (EmptyString, EmptyString)
      | String c rest =>
          if Ascii.eqb c newline then (String c EmptyString, rest)
          else let (l, r) := fgets_take n' rest in (String c l, r)
      end
  end.

(** [fgets(buf, size, stdin)]: NULL ([None]) at end of input. *)
Definition sys_fgets (size : Z) : M (option string) :=
  fun s =>
    match stdin s with
    | EmptyString => (None, syscall (Fgets size) s)
    | String _ _ =>
        let (line, rest) := fgets_take (Z.to_nat (size - 1)) (stdin s) in
        (Some line, set_stdin rest (syscall (Fgets size) s))
    end.

(** [exit(code)]. *)
Definition sys_exit (code : Z) : M unit :=
  modify (fun s => set_exited code (syscall (Exit code) s)).

(** ** Arrays of bytes on the stack *)

(** [buf[idx] = b] for an index inside the array; [None] outside. *)
Definition store (buf : list byte) (idx : Z) (b : byte) : option (list byte) :=
  if (0 <=? idx) && (idx <? Z.of_nat (length buf))
  then Some (<[Z.to_nat idx := b]> buf)
  else None.

(** [char buffer_test[BUF_SIZE];]: C leaves the contents unspecified; the
    program reads only the bytes that [recv] has written. *)
Definition fresh_buffer : list byte := repeat x00 (Z.to_nat BUF_SIZE).

(** A store that C leaves undefined when [idx] is outside the array: the
    model records it and leaves the array as it is. *)
Definition store_checked (buf : list byte) (idx : Z) (b : byte) : M (list byte) :=
  match store buf idx b with
  | Some buf' => ret buf'
  | None => modify (record (StoreOutOfBounds idx)) ;; ret buf
  end.

(** ** The program *)

Section Program.

Variable o : oracle.

(** The loop of [cleanup_and_exit] over the slots [i .. i+n-1]. *)
Fixpoint cleanup_from (n i : nat) : M unit :=
  match n with
  | O => ret tt
  | S n' =>
      sd <- read_slot i ;;
      (if 0 <? sd
       then sys_close sd ;; write_slot i 0 ;; printf (LogClosedClient sd)
       else ret tt) ;;
      cleanup_from n' (S i)
  end.

Definition cleanup_and_exit : M unit :=
  printf LogShutdownInitiated ;;
  lfd <- gets listener_sfd ;;
  (if negb (lfd =? -1)
   then sys_close lfd ;; printf (LogClosedListener lfd)
   else ret tt) ;;
  cleanup_from MAX_CLIENTS 0 ;;
  printf LogCleanupComplete ;;
  sys_exit 0.

(** The loop of [broadcast_message] over the slots [i .. i+n-1]; the
    [return] after a failed send ends it. *)
Fixpoint broadcast_from (n i : nat) (sender_fd : Z) (message : list byte)
    (len : Z) : M unit :=
  match n with
  | O => ret tt
  | S n' =>
      sfd <- read_slot i ;;
      printf (LogHasBytes len) ;;
      if sfd <=? 0 then broadcast_from n' (S i) sender_fd message len
      else if sfd =? sender_fd then broadcast_from n' (S i) sender_fd message len
      else
        send_bytes <- sys_send o sfd message len ;;
        printf (LogSendBytes send_bytes) ;;
        if send_bytes =? -1 then
          printf PerrorSend ;;
          sys_close sfd ;;
          write_slot i 0
        else
          (if send_bytes <? len
           then printf (LogSendWarning send_bytes len)
           else printf (LogSentSuccess len)) ;;
          broadcast_from n' (S i) sender_fd message len
  end.

Definition broadcast_message (sender_fd : Z) (message : list byte) (len : Z)
    : M unit :=
  printf LogBroadcastCalled ;;
  broadcast_from MAX_CLIENTS 0 sender_fd message len.

(** main, lines 211-219: the client descriptors go into the set and
    [max_fd] follows the largest one. *)
Fixpoint populate_from (n i : nat) (readfds : fd_set) : M fd_set :=
  match n with
  | O => ret readfds
  | S n' =>
      c <- read_slot i ;;
      readfds' <- (if 0 <? c
                   then printf (LogPopulated i c) ;; ret (FD_SET c readfds)
                   else ret readfds) ;;
      m <- gets max_fd ;;
      (if m <? c then modify (set_max_fd c) else ret tt) ;;
      populate_from n' (S i) readfds'
  end.

Definition build_readfds : M fd_set :=
  lfd <- gets listener_sfd ;;
  populate_from MAX_CLIENTS 0 (FD_SET lfd (FD_SET STDIN_FILENO FD_ZERO)).

(** main, lines 233-245: the command on standard input. *)
Definition is_quit (cmd_buffer : string) : bool :=
  strncmp cmd_buffer "quit" 4 =? 0.

Definition handle_stdin (readfds : fd_set) : M unit :=
  if FD_ISSET STDIN_FILENO readfds then
    line <- sys_fgets 16 ;;
    match line with
    | Some cmd_buffer =>
        if is_quit cmd_buffer
        then printf LogQuitReceived
        else printf LogCommandIgnored
    | None => ret tt
    end
  else ret tt.

(** main, lines 265-276: the first slot that holds 0 takes [afd]. *)
Fixpoint assign_from (n i : nat) (afd : Z) : M unit :=
  match n with
  | O => ret tt
  | S n' =>
      client_fd <- read_slot i ;;
      if client_fd =? 0 then
        write_slot i afd ;;
        printf (LogAssigned i) ;;
        c <- read_slot i ;;
        m <- gets max_fd ;;
        (if m <? c then modify (set_max_fd c) else ret tt)
      else assign_from n' (S i) afd
  end.

(** main, lines 248-277; [false] stands for the [continue] after a failed
    accept. *)
Definition handle_listener (readfds : fd_set) : M bool :=
  lfd <- gets listener_sfd ;;
  if FD_ISSET lfd readfds then
    printf LogInsideAccept ;;
    afd <- sys_accept o lfd ;;
    if afd =? -1 then
      printf PerrorAccept ;; ret false
    else
      printf (LogNewConnection afd) ;;
      assign_from MAX_CLIENTS 0 afd ;;
      ret true
  else ret true.

(** main, lines 281-299: the body of the receive loop for slot [i]. *)
Definition recv_slot (i : nat) (readfds : fd_set) : M unit :=
  avail_cfd <- read_slot i ;;
  if (0 <? avail_cfd) && FD_ISSET avail_cfd readfds then
    r <- sys_recv o avail_cfd fresh_buffer BUF_SIZE ;;
    let recv_bytes := fst r in
    if recv_bytes <=? 0 then
      sys_close avail_cfd ;;
      write_slot i 0
    else
      buffer_test <- store_checked (snd r) recv_bytes x00 ;;
      printf (LogRecvSuccess recv_bytes) ;;
      _ <- sys_send o avail_cfd ACK 3 ;;
      broadcast_message avail_cfd buffer_test recv_bytes
  else ret tt.

Fixpoint recv_from (n i : nat) (readfds : fd_set) : M unit :=
  match n with
  | O => ret tt
  | S n' => recv_slot i readfds ;; recv_from n' (S i) readfds
  end.

(** main, lines 248-300: the accept step, then the receive loop unless the
    accept failed. *)
Definition accept_and_receive (readfds : fd_set) : M unit :=
  accepted <- handle_listener readfds ;;
  if (accepted : bool) then recv_from MAX_CLIENTS 0 readfds else ret tt.

(** main, lines 231-300, "C. EXECUTION": the ready descriptors are handled
    in the order standard input, listener, clients. *)
Definition dispatch (readfds : fd_set) : M unit :=
  handle_stdin readfds ;;
  printf LogAboutToAccept ;;
  accept_and_receive readfds.

(** One turn of [while(running)]. *)
Definition iteration : M unit :=
  readfds0 <- build_readfds ;;
  m <- gets max_fd ;;
  printf (LogWaiting (m + 1)) ;;
  sel <- sys_select o (m + 1) readfds0 ;;
  let activity := fst sel in
  let readfds := snd sel in
  e <- gets errno ;;
  if (activity <? 0) && negb (e =? EINTR) then
    printf PerrorSelect
  else
    dispatch readfds.

(** [turns] turns of the loop; [running] is never cleared, so the C loop
    has no other end than the end of the process. *)
Fixpoint main_loop (turns : nat) : M unit :=
  match turns with
  | O => ret tt
  | S n =>
      x <- gets exited ;;
      match x with
      | Some _ => ret tt
      | None => iteration ;; main_loop n
      end
  end.

(** [main], with [lfd] the value [setup_listener] returns. *)
Definition main (lfd : Z) (turns : nat) : M unit :=
  modify (set_client_socket (repeat 0 MAX_CLIENTS)) ;;
  modify (set_listener_sfd lfd) ;;
  if lfd =? 0 then
    printf (LogListenerIs lfd) ;;
    printf PerrorListener ;;
    sys_exit 1
  else
    modify (set_max_fd lfd) ;;
    main_loop turns.

End Program.

(** The state of the process when [main] starts: globals as the C
    initialisers leave them, [input] waiting on standard input. *)
Definition boot (input : string) : state :=
  mkState (repeat 0 MAX_CLIENTS) (-1) 0 0 input None 0%nat [] [].

(** [sigint_handler]: the body is the call of [cleanup_and_exit]. [main]
    never installs it (there is no call of [signal] or [sigaction]). *)
Definition sigint_handler (sig : Z) : M unit := cleanup_and_exit.

(** ** Scripted oracles, for running the program on concrete inputs *)

Inductive answer : Type :=
| ASelect (a : select_outcome)
| AAccept (fd : Z)
| ARecv (a : recv_outcome)
| ASend (n : Z)
| ANone.                         (* calls that take no answer: close, fgets, exit *)

(** The oracle that answers the system call number [t] with the [t]-th
    entry of the script; a call that finds no answer of its kind fails. *)
Definition scripted (script : list answer) : oracle :=
  mkOracle
    (fun t => match nth t script ANone with ASelect a => a | _ => SelError 0 end)
    (fun t => match nth t script ANone with AAccept fd => fd | _ => -1 end)
    (fun t => match nth t script ANone with ARecv a => a | _ => RecvError end)
    (fun t => match nth t script ANone with ASend n => n | _ => -1 end).

(** Bytes of a string literal. *)
Definition bytes_of (s : string) : list byte := map byte_of_ascii (list_ascii_of_string s).

(** The events of one kind in a trace. *)
Definition sends (tr : list event) : list (Z * list byte) :=
  flat_map (fun e => match e with Send fd p _ => [(fd, p)] | _ => [] end) tr.

Definition closes (tr : list event) : list Z :=
  flat_map (fun e => match e with Close fd => [fd] | _ => [] end) tr.

(** The bytes the transport took from each send: what the peer receives. *)
Definition delivered (tr : list event) : list (Z * list byte) :=
  flat_map (fun e => match e with
                     | Send fd p r => [(fd, firstn (Z.to_nat r) p)]
                     | _ => []
                     end) tr.

(** The events a computation adds to the trace of the state it starts in. *)
Definition events_of {A : Type} (m : M A) (s : state) : list event :=
  skipn (length (trace s)) (trace (exec m s)).

(** Occupied slots, as the program tests them ([> 0]). *)
Definition occupied (cs : list Z) : list Z := filter (fun fd => 0 < fd) cs.

Definition occupied_count (cs : list Z) : nat := length (occupied cs).

(** The occupied handles of the slots other than [i], in slot order. *)
Definition other_occupied (cs : list Z) (i : nat) : list Z := occupied (delete i cs).

(** What a broadcast may add to the trace: sends to descriptors other
    than the sender's, and the close that follows a failed send. *)
Definition broadcast_event (sender_fd : Z) (e : event) : Prop :=
  match e with
  | Send fd _ _ => 0 < fd /\ fd <> sender_fd
  | Close _ => True
  | _ => False
  end.

(** The slots a broadcast sends to, by the two tests of the loop. *)
Definition recipients (sender_fd : Z) (cs : list Z) : list Z :=
  filter (fun fd => 0 < fd /\ fd <> sender_fd) cs.

(** The directive as the specification words it: the line, with or without
    its line terminator, is the token [quit]. *)
Definition spec_is_quit (line : string) : bool :=
  String.eqb line "quit" || String.eqb line (String.append "quit" (String newline EmptyString)).

(** The proviso of the relay as the specification words it, "no send
    failure": no [send] of the run returned -1. A short write is not a
    failure: the specification and the code keep the two apart. *)
Definition no_send_failure (tr : list event) : Prop :=
  Forall (fun e => match e with Send _ _ r => r <> -1 | _ => True end) tr.


Fixpoint no_NUL (s : string) : bool :=
  match s with
  | EmptyString => true
  | String c t => negb (Ascii.eqb c NUL) && no_NUL t
  end.

(** A property of the state that a computation keeps. *)
Definition preserves (P : state -> Prop) {A : Type} (m : M A) : Prop :=
  forall s, P s -> P (snd (m s)).

Create HintDb preserves.

(** The registry's [find_free_slot] of the specification: the index of the
    first slot that holds 0. *)
Fixpoint find_free_slot (cs : list Z) : option nat :=
  match cs with
  | [] => None
  | fd :: cs' => if fd =? 0 then Some 0%nat else S <$> find_free_slot cs'
  end.

(** ** Concrete inputs *)

Definition line (s : string) : string := String.append s (String newline EmptyString).

(** A server in the middle of its life: listening on descriptor 3, with the
    given table and the given characters waiting on standard input. *)
Definition serving (cs : list Z) (input : string) : state :=
  mkState cs 3 3 0 input None 0%nat [] [].

Definition table_two : list Z := [4; 5; 0; 0; 0; 0; 0; 0; 0; 0].
Definition table_four : list Z := [4; 5; 6; 7; 0; 0; 0; 0; 0; 0].
Definition table_full : list Z := [4; 5; 6; 7; 8; 9; 10; 11; 12; 13].

Definition hello : list byte := bytes_of "hello".

(** A transport that takes every send in full, a peer that has sent [data]. *)
Definition steady (data : list byte) : oracle :=
  mkOracle (fun _ => SelReady []) (fun _ => -1) (fun _ => RecvBytes data)
           (fun _ => BUF_SIZE).

(** ** Address lists and the set-up of a socket

    [getaddrinfo] hands back a list of addresses; what [socket],
    [setsockopt], [bind] and [connect] answer on each of them is part of the
    entry. The set-up functions are run before any loop starts and touch no
    global: they are functions of these answers, giving their return value
    and what they did, in order. *)

Record addr : Type := mkAddr {
  socket_res : Z;                (* what socket() returns for this address, -1: failure *)
  setsockopt_res : Z;            (* what setsockopt() returns on that socket *)
  bind_res : Z;                  (* what bind() returns on that socket *)
  connect_res : Z                (* what connect() returns on that socket *)
}.

Inductive net_log : Type :=
| GaiError
| PerrorSocket
| SocketCreated (fd : Z)
| PerrorSetsockopt
| PerrorBind
| SocketBound (fd : Z)
| PerrorNoAddrinfo
| PerrorListen
| ReadyToListen
| Attempting
| PerrorConnect
| ConnectedTo (fd : Z)
| FailedToConnect.

Inductive net_event : Type :=
| Getaddrinfo (status : Z)
| Freeaddrinfo
| Socket (r : Z)
| Setsockopt (fd r : Z)
| Bind (fd r : Z)
| Listen (fd r : Z)
| Connect (fd r : Z)
| Shut (fd : Z)                  (* close(fd) *)
| Say (m : net_log).

(** How a loop over the address list ends: by [break] with a socket, at the
    end of the list ([p == NULL]), or by a [return] from inside. *)
Inductive search : Type :=
| Found (fd : Z)
| NotFound
| Aborted.

(** chat_server_select.c, [setup_listener], lines 104-129. *)
Fixpoint bind_loop (servinfo : list addr) : search * list net_event :=
  match servinfo with
  | [] => (NotFound, [])
  | p :: rest =>
      let rv := socket_res p in
      if rv =? -1 then
        let (r, evs) := bind_loop rest in
        (r, Socket rv :: Say PerrorSocket :: evs)
      else if setsockopt_res p =? -1 then
        (Aborted, [Socket rv; Say (SocketCreated rv);
                   Setsockopt rv (setsockopt_res p); Say PerrorSetsockopt; Shut rv])
      else if bind_res p =? -1 then
        let (r, evs) := bind_loop rest in
        (r, Socket rv :: Say (SocketCreated rv) ::
            Setsockopt rv (setsockopt_res p) ::
            Bind rv (bind_res p) :: Say PerrorBind :: Shut rv :: evs)
      else
        (Found rv, [Socket rv; Say (SocketCreated rv);
                    Setsockopt rv (setsockopt_res p);
                    Bind rv (bind_res p); Say (SocketBound rv)])
  end.

(** chat_server_select.c, [setup_listener]: [gai] is what [getaddrinfo]
    returns, [servinfo] the list it fills in, [listen_res] what [listen]
    returns. *)
Definition setup_listener (gai : Z) (servinfo : list addr) (listen_res : Z)
    : Z * list net_event :=
  if negb (gai =? 0) then (0, [Getaddrinfo gai; Say GaiError])
  else
    match bind_loop servinfo with
    | (Aborted, evs) => (0, Getaddrinfo gai :: evs)
    | (NotFound, evs) =>
        (0, Getaddrinfo gai :: evs ++ [Freeaddrinfo; Say PerrorNoAddrinfo])
    | (Found rv, evs) =>
        if negb (listen_res =? 0)
        then (0, Getaddrinfo gai :: evs ++
                 [Freeaddrinfo; Listen rv listen_res; Say PerrorListen])
        else (rv, Getaddrinfo gai :: evs ++
                  [Freeaddrinfo; Listen rv listen_res; Say ReadyToListen])
    end.

(** The server process from its first statement: [setup_listener], then
    [main] with the descriptor it returned. *)
Definition server (o : oracle) (gai : Z) (servinfo : list addr) (listen_res : Z)
    (turns : nat) : M unit :=
  main o (fst (setup_listener gai servinfo listen_res)) turns.

(** The sockets a sequence of set-up steps leaves open: [socket] opens one,
    [close] closes the one of that number opened last. *)
Fixpoint remove_first (fd : Z) (fds : list Z) : list Z :=
  match fds with
  | [] => []
  | x :: rest => if x =? fd then rest else x :: remove_first fd rest
  end.

Definition net_step (fds : list Z) (e : net_event) : list Z :=
  match e with
  | Socket r => if r =? -1 then fds else r :: fds
  | Shut fd => remove_first fd fds
  | _ => fds
  end.

Definition still_open (evs : list net_event) : list Z := fold_left net_step evs [].

(** The entries a bind loop passes over: no socket, or a socket that could
    not be bound. *)
Definition unbindable (p : addr) : Prop :=
  socket_res p = -1 \/ (setsockopt_res p <> -1 /\ bind_res p = -1).

(** The entries a connect loop passes over. *)
Definition unreachable (p : addr) : Prop :=
  socket_res p = -1 \/ connect_res p = -1.

(** ** The client programs: state, monad and system calls

    [client1.c] and [client_test.c] are processes of their own, with their
    own globals. They share the shape of their state: the connected socket,
    the [running] flag, standard input, and what the process has done. *)

(** One constructor for each [printf], [fprintf] and [perror] of the two
    client programs. *)
Inductive clog : Type :=
| MsgSigint
| MsgPerrorSignal
| MsgConnected (cfd : Z)
| MsgConsole
| MsgPressCtrlC
| MsgPrompt
| MsgPerrorSelect
| MsgInputClosed
| MsgPerrorSend
| MsgSendWarning (numbytes bytes_to_send : Z)
| MsgSentSuccess (numbytes : Z)
| MsgWaitingResponse
| MsgPerrorRecv
| MsgServerDisconnected
| MsgRecvSuccess (n : Z)
| MsgSocketClosed
| MsgShuttingDown
| MsgClosedSocket (fd : Z)
| MsgGoodbye
| MsgWelcome
| MsgServerClosed
| MsgServerSays (n : Z)
| MsgQuitCommand
| MsgSent (n : Z).

Record client : Type := mkClient {
  sockfd : Z;                    (* client1: main's sockfd; client_test: g_sockfd *)
  running : Z;                   (* volatile int running *)
  cl_errno : Z;
  cl_stdin : string;             (* characters not yet read from standard input *)
  cl_exited : option Z;          (* Some c once the process has ended with status c *)
  cl_clock : nat;                (* system calls made so far *)
  cl_trace : list event;
  cl_net : list net_event;       (* what the connection set-up did *)
  cl_out : list clog
}.

Definition set_sockfd (fd : Z) (c : client) : client :=
  mkClient fd (running c) (cl_errno c) (cl_stdin c) (cl_exited c) (cl_clock c)
           (cl_trace c) (cl_net c) (cl_out c).

Definition set_running (r : Z) (c : client) : client :=
  mkClient (sockfd c) r (cl_errno c) (cl_stdin c) (cl_exited c) (cl_clock c)
           (cl_trace c) (cl_net c) (cl_out c).

Definition set_cl_errno (e : Z) (c : client) : client :=
  mkClient (sockfd c) (running c) e (cl_stdin c) (cl_exited c) (cl_clock c)
           (cl_trace c) (cl_net c) (cl_out c).

Definition set_cl_stdin (i : string) (c : client) : client :=
  mkClient (sockfd c) (running c) (cl_errno c) i (cl_exited c) (cl_clock c)
           (cl_trace c) (cl_net c) (cl_out c).

(** The process ends with status [code]: by [exit] or by [main] returning. *)
Definition set_cl_exited (code : Z) (c : client) : client :=
  mkClient (sockfd c) (running c) (cl_errno c) (cl_stdin c) (Some code) (cl_clock c)
           (cl_trace c) (cl_net c) (cl_out c).

Definition set_cl_net (evs : list net_event) (c : client) : client :=
  mkClient (sockfd c) (running c) (cl_errno c) (cl_stdin c) (cl_exited c) (cl_clock c)
           (cl_trace c) evs (cl_out c).

Definition cl_record (e : event) (c : client) : client :=
  mkClient (sockfd c) (running c) (cl_errno c) (cl_stdin c) (cl_exited c) (cl_clock c)
           (cl_trace c ++ [e]) (cl_net c) (cl_out c).

Definition cl_tick (c : client) : client :=
  mkClient (sockfd c) (running c) (cl_errno c) (cl_stdin c) (cl_exited c)
           (S (cl_clock c)) (cl_trace c) (cl_net c) (cl_out c).

Definition cl_syscall (e : event) (c : client) : client := cl_tick (cl_record e c).

Definition cl_emit (l : clog) (c : client) : client :=
  mkClient (sockfd c) (running c) (cl_errno c) (cl_stdin c) (cl_exited c) (cl_clock c)
           (cl_trace c) (cl_net c) (cl_out c ++ [l]).

Definition CM (A : Type) : Type := client -> A * client.

Definition cret {A : Type} (a : A) : CM A := fun c => (a, c).

Definition cbind {A B : Type} (m : CM A) (k : A -> CM B) : CM B :=
  fun c => let (a, c') := m c in k a c'.

Definition cgets {A : Type} (f : client -> A) : CM A := fun c => (f c, c).

Definition cmodify (f : client -> client) : CM unit := fun c => (tt, f c).

Definition cexec {A : Type} (m : CM A) (c : client) : client := snd (m c).

Declare Scope client_scope.
Delimit Scope client_scope with client.
Notation "x <- m ;; k" := (cbind m (fun x => k))
  (at level 100, m at next level, right associativity) : client_scope.
Notation "m ;; k" := (cbind m (fun _ => k))
  (at level 100, right associativity) : client_scope.

Definition cprintf (l : clog) : CM unit := cmodify (cl_emit l).

Definition cl_close (fd : Z) : CM unit := cmodify (cl_syscall (Close fd)).

(** [exit(code)]. *)
Definition cl_exit (code : Z) : CM unit :=
  cmodify (fun c => set_cl_exited code (cl_syscall (Exit code) c)).

(** [return code;] from [main]. *)
Definition cl_return (code : Z) : CM unit := cmodify (set_cl_exited code).

Definition cl_send (o : oracle) (fd : Z) (buf : list byte) (len : Z) : CM Z :=
  fun c =>
    let r := send_result o (cl_clock c) len in
    (r, cl_syscall (Send fd (firstn (Z.to_nat len) buf) r) c).

Definition cl_recv (o : oracle) (fd : Z) (buf : list byte) (size : Z)
    : CM (Z * list byte) :=
  fun c =>
    let a := recv_res o (cl_clock c) in
    let r := recv_count a size in
    ((r, recv_fill a size buf), cl_syscall (Recv fd size r) c).

Definition cl_select (o : oracle) (nfds : Z) (readfds : fd_set) : CM (Z * fd_set) :=
  fun c =>
    match select_res o (cl_clock c) with
    | SelReady ready =>
        let fds := List.filter (fun fd => FD_ISSET fd ready) readfds in
        ((Z.of_nat (length fds), fds), cl_syscall (Select nfds) c)
    | SelError e => ((-1, readfds), set_cl_errno e (cl_syscall (Select nfds) c))
    end.

Definition cl_fgets (size : Z) : CM (option string) :=
  fun c =>
    match cl_stdin c with
    | EmptyString => (None, cl_syscall (Fgets size) c)
    | String _ _ =>
        let (line, rest) := fgets_take (Z.to_nat (size - 1)) (cl_stdin c) in
        (Some line, set_cl_stdin rest (cl_syscall (Fgets size) c))
    end.

Definition cl_store_checked (buf : list byte) (idx : Z) (b : byte) : CM (list byte) :=
  match store buf idx b with
  | Some buf' => cret buf'
  | None => cbind (cmodify (cl_record (StoreOutOfBounds idx))) (fun _ => cret buf)
  end.

(** ** C strings in a [char] array

    A [string] here is the contents of the array up to the terminator that
    [fgets] wrote; a NUL stored inside it ends the C string earlier. *)

(** [strlen(s)]. *)
Fixpoint strlen (s : string) : nat :=
  match s with
  | EmptyString => 0%nat
  | String c t => if Ascii.eqb c NUL then 0%nat else S (strlen t)
  end.

(** [s[k]] for an index inside the array, NUL at its end. *)
Fixpoint char_index (s : string) (k : nat) : ascii :=
  match s, k with
  | EmptyString, _ => NUL
  | String c _, O => c
  | String _ t, S k' => char_index t k'
  end.

(** [s[k] = c;] *)
Fixpoint set_char (s : string) (k : nat) (c : ascii) : string :=
  match s, k with
  | EmptyString, _ => EmptyString
  | String _ t, O => String c t
  | String x t, S k' => String x (set_char t k' c)
  end.

(** [strcmp(s1, s2)]. *)
Fixpoint strcmp (s1 s2 : string) : Z :=
  match s1 with
  | EmptyString => uchar NUL - uchar (char_at s2)
  | String c1 t1 =>
      let c2 := char_at s2 in
      if negb (Ascii.eqb c1 c2) then uchar c1 - uchar c2
      else if Ascii.eqb c1 NUL then 0
      else strcmp t1 (advance s2)
  end.

(** The two clients' removal of the newline that [fgets] keeps:
    [if (len > 0 && buf[len - 1] == '\n') buf[len - 1] = '\0';] *)
Definition has_newline (buf : string) : bool :=
  let len := strlen buf in
  (0 <? len)%nat && Ascii.eqb (char_index buf (len - 1)) newline.

Definition chomp (buf : string) : string :=
  if has_newline buf then set_char buf (strlen buf - 1) NUL else buf.

(** ** client1.c *)

Module Client1.

Local Open Scope client_scope.

Definition MAX_MESSAGE_LENGTH : Z := 256.

(** [sigint_handler]: the flag is cleared and the process exits at once. *)
Definition sigint_handler (sig : Z) : CM unit :=
  cprintf MsgSigint ;;
  cmodify (set_running 0) ;;
  cl_exit 0.

(** main, lines 82-126: the loop over the addresses. Besides how it ends,
    it gives the value [cfd] is left with. *)
Fixpoint connect_loop (res : list addr) (cfd : Z) : search * Z * list net_event :=
  match res with
  | [] => (NotFound, cfd, [])
  | p :: rest =>
      let sockfd := socket_res p in
      if sockfd =? -1 then
        let '(r, cfd', evs) := connect_loop rest cfd in
        (r, cfd', Socket sockfd :: Say PerrorSocket :: evs)
      else
        let cfd := connect_res p in
        if cfd =? -1 then
          let '(r, cfd', evs) := connect_loop rest cfd in
          (r, cfd', Socket sockfd :: Say (SocketCreated sockfd) :: Say Attempting ::
                    Connect sockfd cfd :: Say PerrorConnect :: Shut sockfd :: evs)
        else
          (Found sockfd, cfd,
           [Socket sockfd; Say (SocketCreated sockfd); Say Attempting;
            Connect sockfd cfd])
  end.

(** main, lines 172-202: a line from the keyboard; [true] stands for the
    [break]. *)
Definition handle_input (o : oracle) (readfds : fd_set) : CM bool :=
  if FD_ISSET STDIN_FILENO readfds then
    line <- cl_fgets MAX_MESSAGE_LENGTH ;;
    match line with
    | None =>
        r <- cgets running ;;
        (if negb (r =? 0) then cprintf MsgInputClosed else cret tt) ;;
        cret true
    | Some message_buffer =>
        let len := strlen message_buffer in
        let bytes_to_send := Z.of_nat len + 1 in
        let message_buffer := chomp message_buffer in
        fd <- cgets sockfd ;;
        numbytes <- cl_send o fd (bytes_of message_buffer)
                      (Z.of_nat (strlen message_buffer)) ;;
        (if numbytes =? -1 then cprintf MsgPerrorSend
         else if numbytes <? bytes_to_send
         then cprintf (MsgSendWarning numbytes bytes_to_send)
         else cprintf (MsgSentSuccess numbytes)) ;;
        cret false
    end
  else cret false.

(** main, lines 204-227: data from the server. *)
Definition handle_socket (o : oracle) (readfds : fd_set) : CM unit :=
  fd <- cgets sockfd ;;
  if FD_ISSET fd readfds then
    cprintf MsgWaitingResponse ;;
    r <- cl_recv o fd (repeat x00 (Z.to_nat MAX_MESSAGE_LENGTH))
           (MAX_MESSAGE_LENGTH - 1) ;;
    let bytes_received := fst r in
    if bytes_received =? -1 then
      cprintf MsgPerrorRecv ;;
      cmodify (set_running 0)
    else if bytes_received =? 0 then
      cprintf MsgServerDisconnected ;;
      cmodify (set_running 0)
    else
      recv_buffer <- cl_store_checked (snd r) bytes_received x00 ;;
      cprintf (MsgRecvSuccess bytes_received)
  else cret tt.

(** One turn of [while (running)]; [true] stands for the [break]. *)
Definition iteration (o : oracle) (max_fd : Z) : CM bool :=
  fd <- cgets sockfd ;;
  let readfds0 := FD_SET fd (FD_SET STDIN_FILENO FD_ZERO) in
  cprintf MsgPrompt ;;
  sel <- cl_select o (max_fd + 1) readfds0 ;;
  let activity := fst sel in
  let readfds := snd sel in
  e <- cgets cl_errno ;;
  if (activity <? 0) && negb (e =? EINTR) then
    cprintf MsgPerrorSelect ;;
    cret false
  else
    stop <- handle_input o readfds ;;
    if (stop : bool) then cret true
    else handle_socket o readfds ;; cret false.

(** At most [turns] turns of the loop; [true] when the loop has ended, by
    its test or by [break]. *)
Fixpoint loop (o : oracle) (max_fd : Z) (turns : nat) : CM bool :=
  match turns with
  | O => r <- cgets running ;; cret (r =? 0)
  | S n =>
      r <- cgets running ;;
      if r =? 0 then cret true
      else
        stop <- iteration o max_fd ;;
        if (stop : bool) then cret true else loop o max_fd n
  end.

(** [main]: [sig_ok] tells whether [signal] installed the handler, [gai] is
    what [getaddrinfo] returns and [res] the list it fills in. *)
Definition main (o : oracle) (sig_ok : bool) (gai : Z) (res : list addr)
    (turns : nat) : CM unit :=
  if negb sig_ok then
    cprintf MsgPerrorSignal ;;
    cl_return 1
  else if negb (gai =? 0) then
    cmodify (set_cl_net [Getaddrinfo gai; Say GaiError]) ;;
    cl_return 2
  else
    let '(found, cfd, evs) := connect_loop res (-1) in
    cprintf (MsgConnected cfd) ;;
    cmodify (set_cl_net (Getaddrinfo gai :: evs ++ [Freeaddrinfo])) ;;
    match found with
    | Found fd =>
        if fd =? -1 then
          cl_return 3
        else
          cmodify (set_sockfd fd) ;;
          cprintf MsgConsole ;;
          cprintf MsgPressCtrlC ;;
          ended <- loop o fd turns ;;
          if (ended : bool) then
            cl_close fd ;;
            cprintf MsgSocketClosed ;;
            cl_return 0
          else cret tt
    | _ =>
        c <- cgets cl_net ;;
        cmodify (set_cl_net (c ++ [Say FailedToConnect])) ;;
        cl_return 2
    end.

End Client1.

(** ** client_test.c *)

Module ClientTest.

Local Open Scope client_scope.

Definition MAX_MESSAGE_LENGTH : Z := 256.
Definition BUF_SIZE : Z := 1024.

Definition cleanup_and_exit : CM unit :=
  cprintf MsgShuttingDown ;;
  g_sockfd <- cgets sockfd ;;
  (if negb (g_sockfd =? -1)
   then cl_close g_sockfd ;; cprintf (MsgClosedSocket g_sockfd)
   else cret tt) ;;
  cprintf MsgGoodbye ;;
  cl_exit 0.

Definition sigint_handler (sig : Z) : CM unit := cleanup_and_exit.

(** [setup_connection], lines 85-103. *)
Fixpoint connect_loop (res : list addr) : search * list net_event :=
  match res with
  | [] => (NotFound, [])
  | p :: rest =>
      let sockfd := socket_res p in
      if sockfd =? -1 then
        let (r, evs) := connect_loop rest in
        (r, Socket sockfd :: Say PerrorSocket :: evs)
      else if connect_res p =? -1 then
        let (r, evs) := connect_loop rest in
        (r, Socket sockfd :: Say Attempting :: Connect sockfd (connect_res p) ::
            Say PerrorConnect :: Shut sockfd :: evs)
      else
        (Found sockfd, [Socket sockfd; Say Attempting;
                        Connect sockfd (connect_res p); Say (ConnectedTo sockfd)])
  end.

Definition setup_connection (gai : Z) (res : list addr) : Z * list net_event :=
  if negb (gai =? 0) then (-1, [Getaddrinfo gai; Say GaiError])
  else
    match connect_loop res with
    | (Found sockfd, evs) => (sockfd, Getaddrinfo gai :: evs ++ [Freeaddrinfo])
    | (_, evs) =>
        (-1, Getaddrinfo gai :: evs ++ [Freeaddrinfo; Say FailedToConnect])
    end.

(** main, lines 158-176: data from the server. *)
Definition handle_server (o : oracle) (readfds : fd_set) : CM unit :=
  g_sockfd <- cgets sockfd ;;
  if FD_ISSET g_sockfd readfds then
    r <- cl_recv o g_sockfd (repeat x00 (Z.to_nat BUF_SIZE)) (BUF_SIZE - 1) ;;
    let valread := fst r in
    if valread =? 0 then
      cprintf MsgServerClosed ;;
      cmodify (set_running 0)
    else if valread <? 0 then
      cprintf MsgPerrorRecv ;;
      cmodify (set_running 0)
    else
      buffer <- cl_store_checked (snd r) valread x00 ;;
      cprintf (MsgServerSays valread) ;;
      cprintf MsgPrompt
  else cret tt.

(** main, line 191: the test for the quit command, on the line without its
    newline. *)
Definition quits (send_buffer : string) : bool :=
  strcmp (chomp send_buffer) "/quit" =? 0.

(** main, lines 179-211: a line from the keyboard; [true] stands for the
    [break]. *)
Definition handle_input (o : oracle) (readfds : fd_set) : CM bool :=
  if FD_ISSET STDIN_FILENO readfds then
    line <- cl_fgets MAX_MESSAGE_LENGTH ;;
    match line with
    | Some send_buffer =>
        let len := if has_newline send_buffer
                   then (strlen send_buffer - 1)%nat
                   else strlen send_buffer in
        if quits send_buffer then
          cprintf MsgQuitCommand ;;
          cmodify (set_running 0) ;;
          cret true
        else if (0 <? len)%nat then
          g_sockfd <- cgets sockfd ;;
          bytes_sent <- cl_send o g_sockfd (bytes_of (chomp send_buffer))
                          (Z.of_nat len) ;;
          if bytes_sent =? -1 then
            cprintf MsgPerrorSend ;;
            cmodify (set_running 0) ;;
            cret true
          else
            cprintf (MsgSent bytes_sent) ;;
            cprintf MsgPrompt ;;
            cret false
        else
          cprintf MsgPrompt ;;
          cret false
    | None => cret false
    end
  else cret false.

(** One turn of [while (running)]; [true] stands for a [break]. *)
Definition iteration (o : oracle) (max_fd : Z) : CM bool :=
  g_sockfd <- cgets sockfd ;;
  let read_fds0 := FD_SET g_sockfd (FD_SET STDIN_FILENO FD_ZERO) in
  sel <- cl_select o (max_fd + 1) read_fds0 ;;
  let activity := fst sel in
  let read_fds := snd sel in
  e <- cgets cl_errno ;;
  if (activity <? 0) && negb (e =? EINTR) then
    cprintf MsgPerrorSelect ;;
    cret true
  else
    handle_server o read_fds ;;
    handle_input o read_fds.

(** At most [turns] turns of the loop; [true] when the loop has ended, by
    its test or by [break]. *)
Fixpoint loop (o : oracle) (max_fd : Z) (turns : nat) : CM bool :=
  match turns with
  | O => r <- cgets running ;; cret (r =? 0)
  | S n =>
      r <- cgets running ;;
      if r =? 0 then cret true
      else
        stop <- iteration o max_fd ;;
        if (stop : bool) then cret true else loop o max_fd n
  end.

(** [main]: [sig_ok] tells whether [signal] installed the handler, [gai] is
    what [getaddrinfo] returns and [res] the list it fills in. *)
Definition main (o : oracle) (sig_ok : bool) (gai : Z) (res : list addr)
    (turns : nat) : CM unit :=
  if negb sig_ok then
    cprintf MsgPerrorSignal ;;
    cl_return 1
  else
    cprintf MsgConsole ;;
    let (g_sockfd, evs) := setup_connection gai res in
    cmodify (set_cl_net evs) ;;
    cmodify (set_sockfd g_sockfd) ;;
    if g_sockfd =? -1 then
      cl_return 1
    else
      let max_fd := if g_sockfd >? STDIN_FILENO then g_sockfd else STDIN_FILENO in
      cprintf MsgWelcome ;;
      cprintf MsgPrompt ;;
      ended <- loop o max_fd turns ;;
      if (ended : bool) then cleanup_and_exit else cret tt.

End ClientTest.

(** A client process when it starts: [running] is 1, the socket global of
    client_test.c is -1, [input] is waiting on standard input. *)
Definition client_boot (input : string) : client :=
  mkClient (-1) 1 0 input None 0%nat [] [] [].

(** The events and the output a client computation adds. *)
Definition cevents_of {A : Type} (m : CM A) (c : client) : list event :=
  skipn (length (cl_trace c)) (cl_trace (cexec m c)).

Definition couts_of {A : Type} (m : CM A) (c : client) : list clog :=
  skipn (length (cl_out c)) (cl_out (cexec m c)).

(** A client connected on descriptor [fd], in the middle of its loop. *)
Definition connected (fd : Z) (input : string) : client :=
  mkClient fd 1 0 input None 0%nat [] [] [].

(** An address on which everything works, giving socket [fd], and one on
    which nothing can connect or bind. *)
Definition good_addr (fd : Z) : addr := mkAddr fd 0 0 0.
Definition dead_addr (fd : Z) : addr := mkAddr fd 0 (-1) (-1).
Definition no_socket : addr := mkAddr (-1) 0 0 0.

(** The system calls of a client's loop: waiting, reading and writing. *)
Definition io_event (e : event) : Prop :=
  match e with
  | Select _ | Fgets _ | Recv _ _ _ | Send _ _ _ => True
  | _ => False
  end.

(** What holds of a client all along its loop: it is connected on [fd], the
    process has not ended, it has made no other call than those of
    [io_event], and it has printed only messages of [allowed]. *)
Definition client_inv (fd : Z) (allowed : clog -> Prop) (c : client) : Prop :=
  sockfd c = fd /\ cl_exited c = None
  /\ Forall io_event (cl_trace c) /\ Forall allowed (cl_out c).

Definition any_message (l : clog) : Prop := True.

Definition not_sent_success (l : clog) : Prop :=
  match l with
  | MsgSentSuccess _ => False
  | _ => True
  end.

Definition is_out_of_bounds (e : event) : Prop :=
  match e with
  | StoreOutOfBounds _ => True
  | _ => False
  end.

(** The C string an array holds: its characters before the first NUL. *)
Fixpoint cstr (s : string) : string :=
  match s with
  | EmptyString => EmptyString
  | String c t => if Ascii.eqb c NUL then EmptyString else String c (cstr t)
  end.

Fixpoint no_newline (s : string) : bool :=
  match s with
  | EmptyString => true
  | String c t => negb (Ascii.eqb c newline) && no_newline t
  end.

(** A table with every occupied slot set to 0. *)
Definition released (cs : list Z) : list Z :=
  map (fun fd => if 0 <? fd then 0 else fd) cs.


(** * Properties *)

(** ** Running the monad *)

Ltac run :=
  unfold exec, bind, ret, gets, modify, printf, read_slot, write_slot,
    sys_close, sys_send, sys_accept, sys_exit, store_checked; cbn.

Lemma events_of_app {A : Type} (m : M A) (s : state) (evs : list event) :
  trace (exec m s) = trace s ++ evs -> events_of m s = evs.
Proof.
  intros H. unfold events_of. rewrite H. apply drop_app_length.
Qed.

Lemma exec_bind {A B : Type} (m : M A) (k : A -> M B) (s : state) :
  exec (bind m k) s = exec (k (fst (m s))) (snd (m s)).
Proof.
  unfold exec, bind. destruct (m s); reflexivity.
Qed.

Lemma slot_Some (cs : list Z) (i : nat) (fd : Z) :
  cs !! i = Some fd -> slot cs i = fd.
Proof. unfold slot. now intros ->. Qed.

Lemma slot_None (cs : list Z) (i : nat) :
  cs !! i = None -> slot cs i = 0.
Proof. unfold slot. now intros ->. Qed.

(** ** broadcast_message *)

Section Broadcast.

Variable o : oracle.
Variables (sender_fd : Z) (message : list byte) (len : Z).

(** One turn of the loop of [broadcast_message], statement by statement. *)
Lemma broadcast_from_step (n i : nat) (s : state) :
  exec (broadcast_from o (S n) i sender_fd message len) s =
    let sfd := slot (client_socket s) i in
    let s1 := emit (LogHasBytes len) s in
    if sfd <=? 0 then exec (broadcast_from o n (S i) sender_fd message len) s1
    else if sfd =? sender_fd
    then exec (broadcast_from o n (S i) sender_fd message len) s1
    else
      let r := send_result o (clock s) len in
      let s2 := emit (LogSendBytes r)
                  (syscall (Send sfd (firstn (Z.to_nat len) message) r) s1) in
      if r =? -1
      then set_client_socket (<[i:=0]> (client_socket s))
             (syscall (Close sfd) (emit PerrorSend s2))
      else exec (broadcast_from o n (S i) sender_fd message len)
             (emit (if r <? len then LogSendWarning r len else LogSentSuccess len) s2).
Proof.
  cbn [broadcast_from]. run.
  destruct (slot (client_socket s) i <=? 0); [reflexivity|].
  destruct (slot (client_socket s) i =? sender_fd); [reflexivity|].
  change (clock (emit (LogHasBytes len) s)) with (clock s).
  destruct (send_result o (clock s) len =? -1); [reflexivity|].
  destruct (send_result o (clock s) len <? len); reflexivity.
Qed.

Lemma broadcast_from_trace (n : nat) :
  forall (i : nat) (s : state),
    exists evs : list event,
      trace (exec (broadcast_from o n i sender_fd message len) s) = trace s ++ evs
      /\ Forall (broadcast_event sender_fd) evs.
Proof.
  induction n as [|n IH]; intros i s.
  - exists []. split; [run; now rewrite app_nil_r | constructor].
  - rewrite broadcast_from_step. cbv zeta.
    destruct (slot (client_socket s) i <=? 0) eqn:Hle;
      [exact (IH (S i) (emit (LogHasBytes len) s))|].
    destruct (slot (client_socket s) i =? sender_fd) eqn:Heq;
      [exact (IH (S i) (emit (LogHasBytes len) s))|].
    apply Z.leb_gt in Hle. apply Z.eqb_neq in Heq.
    destruct (send_result o (clock s) len =? -1) eqn:Hr.
    + eexists. split; [cbn; rewrite <- app_assoc; reflexivity|].
      repeat constructor; assumption.
    + match goal with
      | |- context [exec _ ?s1] => destruct (IH (S i) s1) as (evs & Htr & Hall)
      end.
      eexists. split; [rewrite Htr; cbn; rewrite <- app_assoc; reflexivity|].
      constructor; [split; assumption | assumption].
Qed.

(** A failed send ends the broadcast: whatever slots remain, the turn for
    slot [i] is the last one. *)
Lemma broadcast_from_failed_send (n i : nat) (s : state) :
  let sfd := slot (client_socket s) i in
  0 < sfd ->
  sfd <> sender_fd ->
  send_res o (clock s) < 0 ->
  exec (broadcast_from o (S n) i sender_fd message len) s =
    set_client_socket (<[i:=0]> (client_socket s))
      (syscall (Close sfd)
         (emit PerrorSend
            (emit (LogSendBytes (-1))
               (syscall (Send sfd (firstn (Z.to_nat len) message) (-1))
                  (emit (LogHasBytes len) s))))).
Proof.
  cbv zeta. intros Hpos Hne Hfail. rewrite broadcast_from_step. cbv zeta.
  replace (_ <=? 0) with false by (symmetry; now apply Z.leb_gt).
  replace (_ =? sender_fd) with false by (symmetry; now apply Z.eqb_neq).
  unfold send_result.
  replace (send_res o (clock s) <? 0) with true by (symmetry; now apply Z.ltb_lt).
  reflexivity.
Qed.

(** When the transport takes every send in full, the loop runs to its end:
    one send of [len] bytes to each recipient, in slot order, and the table
    is left as it was. *)
Lemma broadcast_from_complete (n : nat) :
  0 <= len ->
  (forall t, len <= send_res o t) ->
  forall (i : nat) (s : state),
    let s' := exec (broadcast_from o n i sender_fd message len) s in
    client_socket s' = client_socket s
    /\ trace s' = trace s ++
         map (fun fd => Send fd (firstn (Z.to_nat len) message) len)
             (recipients sender_fd (take n (drop i (client_socket s)))).
Proof.
  intros Hlen Hfull.
  assert (Hres : forall t, send_result o t len = len).
  { intros t. unfold send_result. specialize (Hfull t).
    destruct (send_res o t <? 0) eqn:E; [apply Z.ltb_lt in E; lia | lia]. }
  induction n as [|n IH]; intros i s; cbv zeta.
  - run. now rewrite app_nil_r.
  - rewrite broadcast_from_step. cbv zeta. rewrite Hres.
    replace (len =? -1) with false by (symmetry; apply Z.eqb_neq; lia).
    rewrite Z.ltb_irrefl.
    destruct (client_socket s !! i) as [fd|] eqn:Hi;
      [rewrite (slot_Some _ _ _ Hi) | rewrite (slot_None _ _ Hi); cbn [Z.leb Z.compare]].
    + rewrite (drop_S _ _ _ Hi). cbn [take]. unfold recipients.
      destruct (fd <=? 0) eqn:Hle.
      { apply Z.leb_le in Hle. rewrite filter_cons_False by lia.
        exact (IH (S i) (emit (LogHasBytes len) s)). }
      apply Z.leb_gt in Hle.
      destruct (fd =? sender_fd) eqn:Heq.
      { apply Z.eqb_eq in Heq. rewrite filter_cons_False by tauto.
        exact (IH (S i) (emit (LogHasBytes len) s)). }
      apply Z.eqb_neq in Heq. rewrite filter_cons_True by tauto.
      match goal with
      | |- context [exec _ ?s1] => destruct (IH (S i) s1) as [Hcs Htr]
      end.
      split; [exact Hcs|]. rewrite Htr. cbn. now rewrite <- app_assoc.
    + apply lookup_ge_None_1 in Hi.
      rewrite drop_ge by lia. rewrite take_nil.
      destruct (IH (S i) (emit (LogHasBytes len) s)) as [Hcs Htr].
      rewrite drop_ge in Htr by (cbn; lia). rewrite take_nil in Htr.
      split; [exact Hcs | exact Htr].
Qed.

End Broadcast.

(** ** The connection table *)

Lemma recipients_absent (fd : Z) (cs : list Z) :
  fd ∉ cs -> recipients fd cs = occupied cs.
Proof.
  unfold recipients, occupied.
  induction cs as [|x cs IH]; intros Hnot; [reflexivity|].
  apply not_elem_of_cons in Hnot as [Hx Hcs].
  assert (x <> fd) as Hx' by congruence.
  destruct (decide (0 < x)).
  - rewrite !filter_cons_True by (first [assumption | split; assumption]). now rewrite IH.
  - rewrite !filter_cons_False by tauto. now apply IH.
Qed.

Lemma recipients_other_occupied (cs : list Z) :
  forall (i : nat) (fd : Z),
    cs !! i = Some fd ->
    (forall j, cs !! j = Some fd -> j = i) ->
    recipients fd cs = other_occupied cs i.
Proof.
  induction cs as [|x cs IH]; intros i fd Hi Huniq; [discriminate|].
  destruct i as [|i]; cbn [lookup list_lookup] in Hi.
  - injection Hi as ->.
    change (other_occupied (fd :: cs) 0) with (occupied cs).
    unfold recipients. rewrite filter_cons_False by tauto.
    apply recipients_absent. intros Hin.
    apply list_elem_of_lookup in Hin as [j Hj].
    specialize (Huniq (S j) Hj). discriminate.
  - assert (x <> fd) as Hx.
    { intros ->. specialize (Huniq 0%nat eq_refl). discriminate. }
    assert (recipients fd cs = other_occupied cs i) as Hrec.
    { apply IH; [exact Hi|]. intros j Hj. specialize (Huniq (S j) Hj). lia. }
    change (other_occupied (x :: cs) (S i)) with (occupied (x :: delete i cs)).
    unfold recipients, other_occupied, occupied in *.
    destruct (decide (0 < x)).
    + rewrite !filter_cons_True by (first [assumption | split; assumption]). now rewrite Hrec.
    + rewrite !filter_cons_False by tauto. exact Hrec.
Qed.

Lemma other_occupied_count (cs : list Z) :
  forall (i : nat) (fd : Z),
    cs !! i = Some fd -> 0 < fd ->
    occupied_count cs = S (length (other_occupied cs i)).
Proof.
  induction cs as [|x cs IH]; intros i fd Hi Hpos; [discriminate|].
  destruct i as [|i]; cbn [lookup list_lookup] in Hi.
  - injection Hi as ->.
    change (other_occupied (fd :: cs) 0) with (occupied cs).
    unfold occupied_count, occupied. now rewrite filter_cons_True.
  - specialize (IH i fd Hi Hpos).
    change (other_occupied (x :: cs) (S i)) with (occupied (x :: delete i cs)).
    unfold occupied_count, other_occupied, occupied in *.
    destruct (decide (0 < x)).
    + rewrite !filter_cons_True by assumption. cbn [length]. now rewrite IH.
    + rewrite !filter_cons_False by assumption. exact IH.
Qed.

Lemma occupied_count_capacity (cs : list Z) :
  length cs = MAX_CLIENTS -> (occupied_count cs <= MAX_CLIENTS)%nat.
Proof.
  intros <-. apply length_filter.
Qed.

(** ** The receive loop *)

Section Receive.

Variable o : oracle.

(** The body of the receive loop on a slot that is occupied and readable,
    statement by statement. *)
Lemma recv_slot_ready (i : nat) (readfds : fd_set) (s : state) (fd : Z) :
  client_socket s !! i = Some fd ->
  0 < fd ->
  FD_ISSET fd readfds = true ->
  exec (recv_slot o i readfds) s =
    let a := recv_res o (clock s) in
    let recv_bytes := recv_count a BUF_SIZE in
    let s1 := syscall (Recv fd BUF_SIZE recv_bytes) s in
    if recv_bytes <=? 0
    then set_client_socket (<[i:=0]> (client_socket s)) (syscall (Close fd) s1)
    else
      let filled := recv_fill a BUF_SIZE fresh_buffer in
      let stored := store filled recv_bytes x00 in
      let buffer_test := if stored is Some b then b else filled in
      let s2 := if stored is Some _ then s1
                else record (StoreOutOfBounds recv_bytes) s1 in
      let s3 := emit (LogRecvSuccess recv_bytes) s2 in
      let s4 := syscall (Send fd ACK (send_result o (clock s3) 3)) s3 in
      exec (broadcast_message o fd buffer_test recv_bytes) s4.
Proof.
  intros Hi Hpos Hready. unfold recv_slot.
  rewrite exec_bind.
  change (read_slot i s) with (slot (client_socket s) i, s). cbn [fst snd].
  rewrite (slot_Some _ _ _ Hi), Hready.
  replace (0 <? fd) with true by (symmetry; now apply Z.ltb_lt).
  cbn [andb]. rewrite exec_bind. unfold sys_recv. cbn [fst snd]. cbv zeta.
  destruct (recv_count (recv_res o (clock s)) BUF_SIZE <=? 0); [reflexivity|].
  rewrite exec_bind. unfold store_checked.
  destruct (store _ _ x00) as [b|]; reflexivity.
Qed.

Lemma broadcast_message_exec (sender_fd : Z) (message : list byte) (len : Z) (s : state) :
  exec (broadcast_message o sender_fd message len) s =
    exec (broadcast_from o MAX_CLIENTS 0 sender_fd message len) (emit LogBroadcastCalled s).
Proof. reflexivity. Qed.

Lemma broadcast_message_trace (sender_fd : Z) (message : list byte) (len : Z)
    (s : state) :
  exists evs : list event,
    trace (exec (broadcast_message o sender_fd message len) s) = trace s ++ evs
    /\ Forall (broadcast_event sender_fd) evs.
Proof.
  rewrite broadcast_message_exec.
  exact (broadcast_from_trace o sender_fd message len MAX_CLIENTS 0%nat
           (emit LogBroadcastCalled s)).
Qed.

Lemma delivered_app (l1 l2 : list event) :
  delivered (l1 ++ l2) = delivered l1 ++ delivered l2.
Proof. apply flat_map_app. Qed.

Lemma delivered_map_Send (p : list byte) (r : Z) (fds : list Z) :
  delivered (map (fun fd => Send fd p r) fds) =
    map (fun fd => (fd, firstn (Z.to_nat r) p)) fds.
Proof.
  induction fds as [|fd fds IH]; [reflexivity|].
  cbn [map]. change (delivered (Send fd p r :: ?l)) with ((fd, firstn (Z.to_nat r) p) :: delivered l).
  now rewrite IH.
Qed.

(** A message of one to [BUF_SIZE] bytes: what [recv] reports and what
    the front of the buffer holds afterwards. *)
Lemma recv_count_data (data : list byte) :
  data <> [] ->
  let msg := firstn (Z.to_nat BUF_SIZE) data in
  recv_count (RecvBytes data) BUF_SIZE = Z.of_nat (length msg)
  /\ 0 < Z.of_nat (length msg) <= BUF_SIZE.
Proof.
  intros Hne. cbv zeta. split; [reflexivity|].
  rewrite length_take. unfold BUF_SIZE.
  destruct data as [|b data]; [congruence|]. cbn [length]. lia.
Qed.

Lemma buffer_front (data : list byte) :
  let msg := firstn (Z.to_nat BUF_SIZE) data in
  let filled := recv_fill (RecvBytes data) BUF_SIZE fresh_buffer in
  firstn (length msg)
    (if store filled (Z.of_nat (length msg)) x00 is Some b then b else filled) = msg.
Proof.
  cbv zeta. unfold recv_fill, store.
  set (msg := firstn (Z.to_nat BUF_SIZE) data).
  destruct (_ && _).
  - rewrite Nat2Z.id, take_insert_ge by lia. now rewrite take_app_length.
  - now rewrite take_app_length.
Qed.

Lemma filled_length (a : recv_outcome) :
  length (recv_fill a BUF_SIZE fresh_buffer) = Z.to_nat BUF_SIZE.
Proof.
  assert (length fresh_buffer = Z.to_nat BUF_SIZE) as Hfresh
    by apply repeat_length.
  destruct a as [|data]; cbn [recv_fill]; [exact Hfresh|].
  rewrite length_app, length_drop, Hfresh, length_take. lia.
Qed.

(** The terminator [buffer_test[recv_bytes] = 0] lands inside the array
    exactly when fewer than [BUF_SIZE] bytes were received. *)
Lemma terminator_store (a : recv_outcome) (idx : Z) :
  0 <= idx ->
  is_Some (store (recv_fill a BUF_SIZE fresh_buffer) idx x00) <-> idx < BUF_SIZE.
Proof.
  intros Hidx. unfold store. rewrite filled_length.
  rewrite Z2Nat.id by (unfold BUF_SIZE; lia).
  destruct (0 <=? idx) eqn:H0; [|apply Z.leb_gt in H0; lia].
  destruct (idx <? BUF_SIZE) eqn:H1; cbn [andb].
  - apply Z.ltb_lt in H1. split; [auto | eauto].
  - apply Z.ltb_ge in H1. split; [intros [x Hx]; discriminate | lia].
Qed.

(** C6: whatever the table, the sender's descriptor, the message and the
    answers of the transport, no send of a broadcast goes to the sender's
    descriptor. *)
Theorem broadcast_no_self_echo (s : state) (sender_fd : Z)
    (message : list byte) (len : Z) :
  Forall (fun fd => fd <> sender_fd)
    (map fst (sends (events_of (broadcast_message o sender_fd message len) s))).
Proof.
  destruct (broadcast_message_trace sender_fd message len s) as (evs & Htr & Hall).
  rewrite (events_of_app _ s evs Htr).
  clear Htr. induction Hall as [|e evs He _ IH]; [constructor|].
  destruct e; cbn in He |- *; try exact IH; try contradiction.
  constructor; [tauto | exact IH].
Qed.

(** C7: on an occupied, readable slot whose [recv] returns zero or a
    negative value, the turn of the receive loop consists of that [recv]
    and the [close] of the slot's descriptor: the slot is set to 0, the
    other slots keep their contents, nothing is sent, the process goes on
    and the loop moves to the next slot. *)
Theorem recv_slot_disconnect (s : state) (i : nat) (readfds : fd_set) (fd : Z) :
  client_socket s !! i = Some fd ->
  0 < fd ->
  FD_ISSET fd readfds = true ->
  recv_count (recv_res o (clock s)) BUF_SIZE <= 0 ->
  let r := recv_count (recv_res o (clock s)) BUF_SIZE in
  let s' := exec (recv_slot o i readfds) s in
  events_of (recv_slot o i readfds) s = [Recv fd BUF_SIZE r; Close fd]
  /\ client_socket s' = <[i:=0]> (client_socket s)
  /\ client_socket s' !! i = Some 0
  /\ (forall j, j <> i -> client_socket s' !! j = client_socket s !! j)
  /\ exited s' = exited s
  /\ (forall n, exec (recv_from o (S n) i readfds) s =
                exec (recv_from o n (S i) readfds) s').
Proof.
  intros Hi Hpos Hready Hr. cbv zeta.
  assert (Hexec : exec (recv_slot o i readfds) s =
            set_client_socket (<[i:=0]> (client_socket s))
              (syscall (Close fd)
                 (syscall (Recv fd BUF_SIZE (recv_count (recv_res o (clock s)) BUF_SIZE)) s))).
  { rewrite (recv_slot_ready i readfds s fd Hi Hpos Hready). cbv zeta.
    now replace (_ <=? 0) with true by (symmetry; now apply Z.leb_le). }
  repeat split.
  - apply events_of_app. rewrite Hexec. cbn. now rewrite <- app_assoc.
  - now rewrite Hexec.
  - rewrite Hexec. cbn. apply list_lookup_insert_eq. now apply lookup_lt_Some in Hi.
  - intros j Hj. rewrite Hexec. cbn. apply list_lookup_insert_ne. congruence.
  - now rewrite Hexec.
  - intros n. cbn [recv_from]. now rewrite exec_bind.
Qed.


(** A receive of one byte or more on an occupied, readable slot: the
    calls up to the acknowledgement, then the broadcast. *)
Lemma recv_slot_message (s : state) (i : nat) (readfds : fd_set) (fd : Z)
    (data : list byte) :
  client_socket s !! i = Some fd ->
  0 < fd ->
  FD_ISSET fd readfds = true ->
  recv_res o (clock s) = RecvBytes data ->
  data <> [] ->
  let msg := firstn (Z.to_nat BUF_SIZE) data in
  let L := Z.of_nat (length msg) in
  let r := send_result o (S (clock s)) 3 in
  let pre := Recv fd BUF_SIZE L ::
             (if L <? BUF_SIZE then [] else [StoreOutOfBounds L]) in
  exists (buffer_test : list byte) (s_ack : state),
    trace s_ack = trace s ++ pre ++ [Send fd [x41; x43; x4b] r]
    /\ client_socket s_ack = client_socket s
    /\ firstn (length msg) buffer_test = msg
    /\ exec (recv_slot o i readfds) s =
         exec (broadcast_message o fd buffer_test L) s_ack
    /\ events_of (recv_slot o i readfds) s =
         pre ++ Send fd [x41; x43; x4b] r ::
           events_of (broadcast_message o fd buffer_test L) s_ack.
Proof.
  intros Hi Hpos Hready Hrecv Hne. cbv zeta.
  set (msg := firstn (Z.to_nat BUF_SIZE) data).
  set (L := Z.of_nat (length msg)).
  assert (Hmain : exists (buffer_test : list byte) (s_ack : state),
    trace s_ack = trace s ++
      (Recv fd BUF_SIZE L :: (if L <? BUF_SIZE then [] else [StoreOutOfBounds L])) ++
      [Send fd [x41; x43; x4b] (send_result o (S (clock s)) 3)]
    /\ client_socket s_ack = client_socket s
    /\ firstn (length msg) buffer_test = msg
    /\ exec (recv_slot o i readfds) s =
         exec (broadcast_message o fd buffer_test L) s_ack).
  { destruct (recv_count_data data Hne) as [Hcount Hrange].
    cbv zeta in Hcount, Hrange. fold msg L in Hcount, Hrange.
    rewrite (recv_slot_ready i readfds s fd Hi Hpos Hready). cbv zeta.
    rewrite Hrecv, Hcount.
    replace (L <=? 0) with false by (symmetry; apply Z.leb_gt; lia).
    pose proof (buffer_front data) as Hfront. cbv zeta in Hfront.
    fold msg L in Hfront.
    pose proof (terminator_store (RecvBytes data) L (Z.lt_le_incl _ _ (proj1 Hrange)))
      as Hstore.
    destruct (store _ L x00) as [b|] eqn:Hst.
    - replace (L <? BUF_SIZE) with true
        by (symmetry; apply Z.ltb_lt, Hstore; eauto).
      eexists _, _. (split; [|split; [|split]]); cycle 3.
      { reflexivity. }
      { cbn. now rewrite <- app_assoc. }
      { reflexivity. }
      { exact Hfront. }
    - replace (L <? BUF_SIZE) with false.
      + eexists _, _. (split; [|split; [|split]]); cycle 3.
        { reflexivity. }
        { cbn. now rewrite <- !app_assoc. }
        { reflexivity. }
        { exact Hfront. }
      + symmetry. apply Z.ltb_ge. apply Z.nlt_ge. intros Hlt.
        apply Hstore in Hlt as [x Hx]. discriminate. }
  destruct Hmain as (buf & s_ack & Htr & Hcs & Hfront & Hexec).
  exists buf, s_ack. repeat (split; [assumption|]).
  destruct (broadcast_message_trace fd buf L s_ack) as (evs & Hbc & _).
  rewrite (events_of_app _ s_ack evs Hbc).
  apply events_of_app. rewrite Hexec, Hbc, Htr.
  now rewrite <- !app_assoc.
Qed.


(** C10: after a receive of one byte or more on slot [i], the next system
    call is the send of the three bytes "ACK" to the sender; whatever that
    send returns ([r]), [broadcast_message] is then called with the sender's
    descriptor and the bytes received, from a state [s_ack] in which the
    table is still untouched. The events of the turn are the receive, the
    acknowledgement and then those of the broadcast. *)
Theorem recv_slot_ack (s : state) (i : nat) (readfds : fd_set) (fd : Z)
    (data : list byte) :
  client_socket s !! i = Some fd ->
  0 < fd ->
  FD_ISSET fd readfds = true ->
  recv_res o (clock s) = RecvBytes data ->
  data <> [] ->
  let msg := firstn (Z.to_nat BUF_SIZE) data in
  let L := Z.of_nat (length msg) in
  let r := send_result o (S (clock s)) 3 in
  let pre := Recv fd BUF_SIZE L ::
             (if L <? BUF_SIZE then [] else [StoreOutOfBounds L]) in
  exists (buffer_test : list byte) (s_ack : state),
    trace s_ack = trace s ++ pre ++ [Send fd [x41; x43; x4b] r]
    /\ client_socket s_ack = client_socket s
    /\ firstn (length msg) buffer_test = msg
    /\ exec (recv_slot o i readfds) s =
         exec (broadcast_message o fd buffer_test L) s_ack
    /\ events_of (recv_slot o i readfds) s =
         pre ++ Send fd [x41; x43; x4b] r ::
           events_of (broadcast_message o fd buffer_test L) s_ack.
Proof.
  exact (recv_slot_message s i readfds fd data).
Qed.

(** C5, as the code has it: a message of [L] bytes arrives on the occupied
    slot [i], whose descriptor sits in no other slot, and the transport
    takes every send in full: none fails and none is a short write. Then, after the acknowledgement to the sender, each of the
    other occupied slots is delivered the [L] bytes received, one send
    each, in slot order; there are [N - 1] of them, [N] the number of
    occupied slots, and the table is left as it was. *)
Theorem broadcast_completeness (s : state) (i : nat) (readfds : fd_set)
    (fd : Z) (data : list byte) :
  length (client_socket s) = MAX_CLIENTS ->
  client_socket s !! i = Some fd ->
  0 < fd ->
  (forall j, client_socket s !! j = Some fd -> j = i) ->
  FD_ISSET fd readfds = true ->
  recv_res o (clock s) = RecvBytes data ->
  data <> [] ->
  (forall t, BUF_SIZE <= send_res o t) ->
  let msg := firstn (Z.to_nat BUF_SIZE) data in
  let others := other_occupied (client_socket s) i in
  delivered (events_of (recv_slot o i readfds) s) =
    (fd, ACK) :: map (fun fd' => (fd', msg)) others
  /\ S (length others) = occupied_count (client_socket s)
  /\ client_socket (exec (recv_slot o i readfds) s) = client_socket s.
Proof.
  intros Hlen Hi Hpos Huniq Hready Hrecv Hne Hfull. cbv zeta.
  destruct (recv_slot_message s i readfds fd data Hi Hpos Hready Hrecv Hne)
    as (buf & s_ack & Htr & Hcs & Hfront & Hexec & _).
  destruct (recv_count_data data Hne) as [_ Hrange]. cbv zeta in Hrange.
  set (msg := firstn (Z.to_nat BUF_SIZE) data) in *.
  set (L := Z.of_nat (length msg)) in *.
  assert (HfullL : forall t, L <= send_res o t).
  { intros t. specialize (Hfull t). lia. }
  destruct (broadcast_from_complete o fd buf L MAX_CLIENTS
              (Z.lt_le_incl _ _ (proj1 Hrange)) HfullL 0%nat
              (emit LogBroadcastCalled s_ack)) as [Hcs' Htr'].
  rewrite <- broadcast_message_exec, <- Hexec in Hcs', Htr'.
  change (client_socket (emit LogBroadcastCalled s_ack)) with (client_socket s_ack)
    in Hcs', Htr'.
  change (trace (emit LogBroadcastCalled s_ack)) with (trace s_ack) in Htr'.
  rewrite Hcs in Hcs', Htr'. rewrite drop_0, (take_ge (client_socket s)) in Htr' by lia.
  rewrite (recipients_other_occupied _ i fd Hi Huniq) in Htr'.
  split; [|split; [symmetry; now apply (other_occupied_count _ i fd) | exact Hcs']].
  rewrite Htr, <- app_assoc in Htr'.
  rewrite (events_of_app _ s _ Htr').
  rewrite !delivered_app, delivered_map_Send.
  assert (Hmsg : firstn (Z.to_nat L) (firstn (Z.to_nat L) buf) = msg).
  { unfold L. rewrite Nat2Z.id, take_take, Nat.min_id. exact Hfront. }
  rewrite Hmsg.
  assert (Hack : send_result o (S (clock s)) 3 = 3).
  { unfold send_result. specialize (Hfull (S (clock s))). unfold BUF_SIZE in Hfull.
    destruct (_ <? 0) eqn:E; [apply Z.ltb_lt in E; lia | lia]. }
  rewrite Hack. destruct (L <? BUF_SIZE); reflexivity.
Qed.

End Receive.

(** ** The command on standard input *)

Lemma uchar_inj (a b : ascii) : uchar a = uchar b -> a = b.
Proof.
  unfold uchar. intros H. apply Nat2Z.inj in H.
  rewrite <- (ascii_nat_embedding a), <- (ascii_nat_embedding b). now rewrite H.
Qed.

(** One character of the comparison against a literal. *)
Lemma strncmp_step (s1 : string) (c : ascii) (t : string) (n : nat) :
  c <> NUL ->
  (strncmp s1 (String c t) (S n) =? 0) =
    match s1 with
    | EmptyString => false
    | String c1 s1' => if ascii_dec c c1 then strncmp s1' t n =? 0 else false
    end.
Proof.
  intros Hc. cbn [strncmp char_at advance].
  destruct s1 as [|c1 s1']; cbn [char_at advance].
  - destruct (Ascii.eqb_spec NUL c) as [E|E]; [congruence|]. cbn [negb].
    apply Z.eqb_neq. intros H. apply E, uchar_inj. lia.
  - destruct (ascii_dec c c1) as [<-|E].
    + rewrite Ascii.eqb_refl. cbn [negb].
      destruct (Ascii.eqb_spec c NUL) as [E|E]; [congruence | reflexivity].
    + destruct (Ascii.eqb_spec c1 c) as [E'|E']; [congruence|]. cbn [negb].
      apply Z.eqb_neq. intros H. apply E', uchar_inj. lia.
Qed.

(** Against a literal and over its whole length, [strncmp] is the prefix
    test. *)
Lemma strncmp_literal (lit : string) :
  no_NUL lit = true ->
  forall s : string,
    (strncmp s lit (String.length lit) =? 0) = String.prefix lit s.
Proof.
  induction lit as [|c t IH]; intros Hlit s.
  - now destruct s.
  - cbn [no_NUL] in Hlit. apply andb_true_iff in Hlit as [Hc Ht].
    cbn [String.length]. rewrite strncmp_step
      by (intros ->; discriminate Hc).
    destruct s as [|c1 s1]; cbn [String.prefix]; [reflexivity|].
    destruct (ascii_dec c c1); [now apply IH | reflexivity].
Qed.

(** [strncmp(cmd_buffer, "quit", 4) == 0] looks at four characters only. *)
Lemma is_quit_prefix (cmd_buffer : string) :
  is_quit cmd_buffer = String.prefix "quit" cmd_buffer.
Proof.
  exact (strncmp_literal "quit" eq_refl cmd_buffer).
Qed.

Lemma fgets_take_split (n : nat) :
  forall input : string,
    String.append (fst (fgets_take n input)) (snd (fgets_take n input)) = input
    /\ (String.length (fst (fgets_take n input)) <= n)%nat.
Proof.
  induction n as [|n IH]; intros input; [split; [reflexivity | cbn; lia]|].
  destruct input as [|c rest]; [split; [reflexivity | cbn; lia]|].
  cbn [fgets_take]. destruct (Ascii.eqb c newline).
  - split; [reflexivity | cbn; lia].
  - specialize (IH rest). destruct (fgets_take n rest) as [l r].
    cbn [fst snd String.append String.length] in *.
    destruct IH as [H1 H2]. split; [now rewrite H1 | lia].
Qed.

Lemma fgets_take_nonempty (n : nat) (c : ascii) (rest : string) :
  (1 <= String.length (fst (fgets_take (S n) (String c rest))))%nat.
Proof.
  cbn [fgets_take]. destruct (Ascii.eqb c newline); [cbn; lia|].
  destruct (fgets_take n rest). cbn. lia.
Qed.

(** [fgets] on a buffer that can hold the line: the line with its newline
    is taken, the rest stays. *)
Lemma fgets_take_line (l rest : string) :
  no_newline l = true ->
  forall n : nat,
    (String.length l < n)%nat ->
    fgets_take n (String.append (line l) rest) = (line l, rest).
Proof.
  induction l as [|c l IH]; intros Hl n Hn.
  - destruct n as [|n]; [cbn in Hn; lia|]. reflexivity.
  - cbn in Hl. apply andb_true_iff in Hl as [Hc Hl]. apply negb_true_iff in Hc.
    destruct n as [|n]; [cbn in Hn; lia|]. cbn in Hn.
    cbn [line String.append fgets_take]. rewrite Hc.
    change (String.append (String.append l (String newline EmptyString)) rest)
      with (String.append (line l) rest).
    rewrite (IH Hl n) by lia. reflexivity.
Qed.

(** C9, as the code has it: what one read of the control input returns (one
    [fgets], which takes between 1 and 15 characters from the front of the
    waiting input: a line of at most 14 characters whole, with its newline,
    a longer line in pieces) counts as the shutdown directive exactly when
    its first four characters are [quit], case-sensitive, whatever follows
    them; anything else read is answered with "Command ignored." and changes
    nothing else. *)
Theorem quit_directive_prefix (s s1 : state) (readfds : fd_set) (cmd_buffer : string) :
  FD_ISSET STDIN_FILENO readfds = true ->
  sys_fgets 16 s = (Some cmd_buffer, s1) ->
  exec (handle_stdin readfds) s =
    emit (if String.prefix "quit" cmd_buffer then LogQuitReceived else LogCommandIgnored) s1
  /\ stdin s = String.append cmd_buffer (stdin s1)
  /\ (1 <= String.length cmd_buffer <= 15)%nat
  /\ (forall l rest : string,
        stdin s = String.append (line l) rest ->
        no_newline l = true ->
        (String.length l <= 14)%nat ->
        cmd_buffer = line l).
Proof.
  intros Hready Hline. split.
  { unfold handle_stdin. rewrite Hready, exec_bind, Hline.
    cbn [fst snd]. rewrite is_quit_prefix.
    destruct (String.prefix "quit" cmd_buffer); reflexivity. }
  unfold sys_fgets in Hline. change (Z.to_nat (16 - 1)) with 15%nat in Hline.
  destruct (stdin s) as [|c input] eqn:Hs; [discriminate Hline|].
  pose proof (fgets_take_split 15 (String c input)) as [Hsplit Hlen].
  pose proof (fgets_take_nonempty 14 c input) as Hone.
  destruct (fgets_take 15 (String c input)) as [got rest'] eqn:Htake.
  injection Hline as <- <-. cbn [fst snd] in *.
  change (stdin (set_stdin rest' _)) with rest'.
  split; [now symmetry|]. split; [split; assumption|].
  intros l rest Hl Hnl Hshort. rewrite Hl in Htake.
  rewrite (fgets_take_line l rest Hnl 15) in Htake by lia.
  now injection Htake as <- _.
Qed.

(** C9 as stated fails: a line that only begins with [quit] is taken for
    the directive. *)
Lemma quit_directive_not_exact :
  ~ (forall line : string, is_quit line = true <-> spec_is_quit line = true).
Proof.
  intros H. specialize (H (line "quitter")).
  destruct H as [H _]. specialize (H eq_refl). discriminate H.
Qed.

(** ** Properties of the state that every statement keeps *)

Section Preservation.

Variable P : state -> Prop.
Hypothesis P_emit : forall l s, P s -> P (emit l s).
Hypothesis P_record : forall e s, P s -> P (record e s).
Hypothesis P_tick : forall s, P s -> P (tick s).
Hypothesis P_errno : forall e s, P s -> P (set_errno e s).
Hypothesis P_stdin : forall i s, P s -> P (set_stdin i s).
Hypothesis P_max_fd : forall m s, P s -> P (set_max_fd m s).
Hypothesis P_write :
  forall i v s, P s -> P (set_client_socket (<[i:=v]> (client_socket s)) s).

Variable o : oracle.

Lemma preserves_ret {A : Type} (a : A) : preserves P (ret a).
Proof. intros s Hs. exact Hs. Qed.

Lemma preserves_bind {A B : Type} (m : M A) (k : A -> M B) :
  preserves P m -> (forall a, preserves P (k a)) -> preserves P (bind m k).
Proof.
  intros Hm Hk s Hs. unfold bind. specialize (Hm s Hs).
  destruct (m s) as [a s1]. now apply Hk.
Qed.

Lemma preserves_gets {A : Type} (f : state -> A) : preserves P (gets f).
Proof. intros s Hs. exact Hs. Qed.

Lemma preserves_printf (l : log) : preserves P (printf l).
Proof. intros s Hs. now apply P_emit. Qed.

Lemma preserves_syscall (e : event) (s : state) : P s -> P (syscall e s).
Proof. intros Hs. now apply P_tick, P_record. Qed.

Lemma preserves_sys_close (fd : Z) : preserves P (sys_close fd).
Proof. intros s Hs. now apply preserves_syscall. Qed.

Lemma preserves_read_slot (i : nat) : preserves P (read_slot i).
Proof. intros s Hs. exact Hs. Qed.

Lemma preserves_write_slot (i : nat) (v : Z) : preserves P (write_slot i v).
Proof. intros s Hs. now apply P_write. Qed.

Lemma preserves_set_max_fd (m : Z) : preserves P (modify (set_max_fd m)).
Proof. intros s Hs. now apply P_max_fd. Qed.

Lemma preserves_sys_send (fd : Z) (buf : list byte) (len : Z) :
  preserves P (sys_send o fd buf len).
Proof. intros s Hs. now apply preserves_syscall. Qed.

Lemma preserves_sys_recv (fd : Z) (buf : list byte) (size : Z) :
  preserves P (sys_recv o fd buf size).
Proof. intros s Hs. now apply preserves_syscall. Qed.

Lemma preserves_sys_accept (lfd : Z) : preserves P (sys_accept o lfd).
Proof. intros s Hs. now apply preserves_syscall. Qed.

Lemma preserves_sys_select (nfds : Z) (readfds : fd_set) :
  preserves P (sys_select o nfds readfds).
Proof.
  intros s Hs. unfold sys_select.
  destruct (select_res o (clock s)); cbn [snd];
    [|apply P_errno]; now apply preserves_syscall.
Qed.

Lemma preserves_sys_fgets (size : Z) : preserves P (sys_fgets size).
Proof.
  intros s Hs. unfold sys_fgets.
  destruct (stdin s); [now apply preserves_syscall|].
  destruct (fgets_take _ _). cbn [snd]. now apply P_stdin, preserves_syscall.
Qed.

Lemma preserves_store_checked (buf : list byte) (idx : Z) (b : byte) :
  preserves P (store_checked buf idx b).
Proof.
  intros s Hs. unfold store_checked.
  destruct (store buf idx b); [exact Hs | now apply P_record].
Qed.

#[local] Hint Resolve preserves_ret preserves_gets preserves_printf
  preserves_sys_close preserves_read_slot preserves_write_slot
  preserves_set_max_fd preserves_sys_send preserves_sys_recv
  preserves_sys_accept preserves_sys_select preserves_sys_fgets
  preserves_store_checked : preserves.

(** Follows the structure of a C statement down to its primitive steps. *)
Ltac walk :=
  repeat first
    [ solve [eauto with preserves]
    | apply preserves_bind; [|intros ?]
    | match goal with
      | |- preserves _ (if ?b then _ else _) => destruct b
      | |- preserves _ (match ?x with _ => _ end) => destruct x
      end ].

Lemma preserves_broadcast_from (sender_fd : Z) (message : list byte) (len : Z)
    (n : nat) :
  forall i, preserves P (broadcast_from o n i sender_fd message len).
Proof.
  induction n as [|n IH]; intros i; cbn [broadcast_from]; walk.
Qed.

Lemma preserves_broadcast_message (sender_fd : Z) (message : list byte) (len : Z) :
  preserves P (broadcast_message o sender_fd message len).
Proof.
  unfold broadcast_message. pose proof preserves_broadcast_from. walk.
Qed.

Lemma preserves_populate_from (n : nat) :
  forall i readfds, preserves P (populate_from n i readfds).
Proof.
  induction n as [|n IH]; intros i readfds; cbn [populate_from]; walk.
Qed.

Lemma preserves_assign_from (afd : Z) (n : nat) :
  forall i, preserves P (assign_from n i afd).
Proof.
  induction n as [|n IH]; intros i; cbn [assign_from]; walk.
Qed.

Lemma preserves_recv_slot (i : nat) (readfds : fd_set) :
  preserves P (recv_slot o i readfds).
Proof.
  unfold recv_slot. pose proof preserves_broadcast_message. walk.
Qed.

Lemma preserves_recv_from (readfds : fd_set) (n : nat) :
  forall i, preserves P (recv_from o n i readfds).
Proof.
  pose proof preserves_recv_slot.
  induction n as [|n IH]; intros i; cbn [recv_from]; walk.
Qed.

Lemma preserves_accept_and_receive (readfds : fd_set) :
  preserves P (accept_and_receive o readfds).
Proof.
  pose proof preserves_assign_from. pose proof preserves_recv_from.
  unfold accept_and_receive, handle_listener. walk.
Qed.

Lemma preserves_dispatch (readfds : fd_set) : preserves P (dispatch o readfds).
Proof.
  pose proof preserves_accept_and_receive.
  unfold dispatch, handle_stdin. walk.
Qed.


Lemma preserves_iteration : preserves P (iteration o).
Proof.
  pose proof preserves_populate_from. pose proof preserves_dispatch.
  unfold iteration, build_readfds. walk.
Qed.

Lemma preserves_main_loop (turns : nat) : preserves P (main_loop o turns).
Proof.
  pose proof preserves_iteration.
  induction turns as [|n IH]; cbn [main_loop]; walk.
Qed.

End Preservation.

(** Nothing in the loop ends the process: [running] stays 1 and no path of
    the loop body calls [exit]. *)
Lemma main_loop_keeps_running (o : oracle) (turns : nat) (s : state) :
  exited s = None -> exited (exec (main_loop o turns) s) = None.
Proof.
  apply (preserves_main_loop (fun s => exited s = None)); auto.
Qed.

(** The table keeps its [MAX_CLIENTS] slots, so the number of occupied slots
    never exceeds the capacity. *)
Lemma main_loop_table_length (o : oracle) (turns : nat) (s : state) :
  length (client_socket s) = MAX_CLIENTS ->
  length (client_socket (exec (main_loop o turns) s)) = MAX_CLIENTS.
Proof.
  apply (preserves_main_loop (fun s => length (client_socket s) = MAX_CLIENTS));
    auto.
  intros i v s' Hs. cbn. now rewrite length_insert.
Qed.

Lemma main_loop_capacity (o : oracle) (turns : nat) (s : state) :
  length (client_socket s) = MAX_CLIENTS ->
  (occupied_count (client_socket (exec (main_loop o turns) s)) <= MAX_CLIENTS)%nat.
Proof.
  intros Hlen. apply occupied_count_capacity. now apply main_loop_table_length.
Qed.

(** From the start of [main] on, whatever the clients and the transport
    do, the occupied slots never outnumber the capacity. *)
Lemma main_capacity (o : oracle) (lfd : Z) (turns : nat) (input : string) :
  (occupied_count (client_socket (exec (main o lfd turns) (boot input)))
   <= MAX_CLIENTS)%nat.
Proof.
  apply occupied_count_capacity. unfold main. do 2 rewrite exec_bind.
  cbn [modify fst snd]. destruct (lfd =? 0); [reflexivity|].
  rewrite exec_bind. cbn [modify fst snd].
  now apply main_loop_table_length.
Qed.

(** ** Accepting a connection *)

Section Accept.

Variable o : oracle.

(** The assignment loop: the first free slot among [i .. i+n-1] takes the
    descriptor; with none free the loop changes nothing. It makes no system
    call either way. *)
Lemma assign_from_spec (afd : Z) (n : nat) :
  forall (i : nat) (s : state),
    let s' := exec (assign_from n i afd) s in
    client_socket s' =
      match find_free_slot (take n (drop i (client_socket s))) with
      | Some k => <[(i + k)%nat := afd]> (client_socket s)
      | None => client_socket s
      end
    /\ trace s' = trace s /\ clock s' = clock s /\ exited s' = exited s.
Proof.
  induction n as [|n IH]; intros i s; cbv zeta; [now cbn|].
  cbn [assign_from]. rewrite exec_bind.
  change (read_slot i s) with (slot (client_socket s) i, s). cbn [fst snd].
  destruct (client_socket s !! i) as [fd|] eqn:Hi.
  - rewrite (slot_Some _ _ _ Hi), (drop_S _ _ _ Hi). cbn [take find_free_slot].
    destruct (fd =? 0).
    + rewrite Nat.add_0_r. run.
      destruct (max_fd s <? slot (<[i:=afd]> (client_socket s)) i); now cbn.
    + specialize (IH (S i) s). cbv zeta in IH.
      destruct IH as (Hcs & Hrest). split; [|exact Hrest].
      rewrite Hcs. destruct (find_free_slot _) as [k|]; cbn [fmap option_fmap option_map];
        [now rewrite Nat.add_succ_r | reflexivity].
  - rewrite (slot_None _ _ Hi). cbn [Z.eqb].
    apply lookup_ge_None_1 in Hi. rewrite drop_ge by lia. rewrite take_nil.
    cbn [find_free_slot]. run.
    destruct (max_fd s <? slot (<[i:=afd]> (client_socket s)) i); cbn;
      (split; [now apply list_insert_ge | auto]).
Qed.

(** The accept step makes one system call at most, the [accept] itself: on
    no path does it close the descriptor it was given. *)
Lemma handle_listener_events (readfds : fd_set) (s : state) :
  events_of (handle_listener o readfds) s =
    if FD_ISSET (listener_sfd s) readfds
    then [Accept (listener_sfd s)
            (if accept_res o (clock s) <? 0 then -1 else accept_res o (clock s))]
    else [].
Proof.
  apply events_of_app. unfold handle_listener.
  rewrite exec_bind. cbn [gets fst snd].
  destruct (FD_ISSET (listener_sfd s) readfds); [|run; now rewrite app_nil_r].
  rewrite !exec_bind. cbn [printf modify fst snd sys_accept].
  change (clock (emit LogInsideAccept s)) with (clock s).
  set (r := if accept_res o (clock s) <? 0 then -1 else accept_res o (clock s)).
  destruct (r =? -1); [reflexivity|].
  rewrite !exec_bind. cbn [printf modify fst snd].
  change (exec (ret true) ?x) with x.
  match goal with
  | |- context [assign_from ?n ?i ?a ?s1] =>
      destruct (assign_from_spec a n i s1) as (_ & Htr & _)
  end.
  unfold exec in Htr. now rewrite Htr.
Qed.

(** X4: an accepted connection goes to the first free slot when there is
    one; with the table full the table is left as it is. *)
Lemma handle_listener_table (readfds : fd_set) (s : state) (afd : Z) :
  length (client_socket s) = MAX_CLIENTS ->
  FD_ISSET (listener_sfd s) readfds = true ->
  accept_res o (clock s) = afd ->
  0 <= afd ->
  client_socket (exec (handle_listener o readfds) s) =
    match find_free_slot (client_socket s) with
    | Some k => <[k := afd]> (client_socket s)
    | None => client_socket s
    end.
Proof.
  intros Hlen Hready Hacc Hafd. unfold handle_listener.
  rewrite exec_bind. cbn [gets fst snd]. rewrite Hready.
  rewrite !exec_bind. cbn [printf modify fst snd sys_accept].
  change (clock (emit LogInsideAccept s)) with (clock s). rewrite Hacc.
  replace (afd <? 0) with false by (symmetry; apply Z.ltb_ge; lia).
  replace (afd =? -1) with false by (symmetry; apply Z.eqb_neq; lia).
  rewrite !exec_bind. cbn [printf modify fst snd].
  change (exec (ret true) ?x) with x.
  match goal with
  | |- context [assign_from ?n ?i ?a ?s1] =>
      destruct (assign_from_spec a n i s1) as (Hcs & _)
  end.
  unfold exec in Hcs. rewrite Hcs. cbn [client_socket emit syscall tick record].
  rewrite drop_0, take_ge by lia. reflexivity.
Qed.

End Accept.

(** ** Teardown and the wait *)

Section Teardown.

Variable o : oracle.

Lemma cleanup_from_trace (n : nat) :
  forall (i : nat) (s : state),
    let s' := exec (cleanup_from n i) s in
    trace s' = trace s ++ map Close (occupied (take n (drop i (client_socket s))))
    /\ exited s' = exited s.
Proof.
  induction n as [|n IH]; intros i s; cbv zeta; [run; now rewrite app_nil_r|].
  cbn [cleanup_from]. rewrite exec_bind.
  change (read_slot i s) with (slot (client_socket s) i, s). cbn [fst snd].
  rewrite exec_bind. unfold occupied.
  destruct (client_socket s !! i) as [fd|] eqn:Hi.
  - rewrite (slot_Some _ _ _ Hi), (drop_S _ _ _ Hi). cbn [take].
    destruct (0 <? fd) eqn:Hpos.
    + apply Z.ltb_lt in Hpos. rewrite filter_cons_True by exact Hpos.
      match goal with
      | |- context [exec _ ?s1] => destruct (IH (S i) s1) as [Htr Hex]
      end.
      rewrite Htr, Hex. cbn.
      rewrite drop_insert_lt by lia. unfold occupied.
      now rewrite <- app_assoc.
    + apply Z.ltb_ge in Hpos. rewrite filter_cons_False by lia.
      exact (IH (S i) s).
  - rewrite (slot_None _ _ Hi). cbn [Z.ltb Z.compare].
    apply lookup_ge_None_1 in Hi.
    destruct (IH (S i) s) as [Htr Hex]. unfold occupied in Htr.
    rewrite drop_ge in Htr by lia. rewrite drop_ge by lia.
    rewrite take_nil in Htr |- *. split; [exact Htr | exact Hex].
Qed.

(** [cleanup_and_exit], the teardown that [sigint_handler] calls: it
    closes the listening descriptor, then every occupied slot's descriptor
    in slot order, and ends the process with code 0. *)
Lemma cleanup_and_exit_teardown (s : state) :
  length (client_socket s) = MAX_CLIENTS ->
  listener_sfd s <> -1 ->
  let s' := exec cleanup_and_exit s in
  events_of cleanup_and_exit s =
    Close (listener_sfd s) :: map Close (occupied (client_socket s)) ++ [Exit 0]
  /\ exited s' = Some 0.
Proof.
  intros Hlen Hl. cbv zeta.
  set (s1 := emit (LogClosedListener (listener_sfd s))
               (syscall (Close (listener_sfd s)) (emit LogShutdownInitiated s))).
  assert (Hexec : exec cleanup_and_exit s =
            set_exited 0 (syscall (Exit 0)
              (emit LogCleanupComplete (exec (cleanup_from MAX_CLIENTS 0) s1)))).
  { unfold cleanup_and_exit. rewrite !exec_bind. cbn [printf modify gets fst snd].
    change (listener_sfd (emit LogShutdownInitiated s)) with (listener_sfd s).
    replace (listener_sfd s =? -1) with false by (symmetry; now apply Z.eqb_neq).
    reflexivity. }
  destruct (cleanup_from_trace MAX_CLIENTS 0%nat s1) as [Htr _].
  split; [apply events_of_app|]; rewrite Hexec; [|reflexivity].
  cbn [trace set_exited syscall tick record emit]. rewrite Htr.
  cbn [trace client_socket s1 syscall tick record emit].
  rewrite drop_0, take_ge by lia. cbn. now rewrite <- !app_assoc.
Qed.

(** Filling the descriptor set touches [max_fd] and the output only. *)
Lemma populate_from_frame (n : nat) :
  forall (i : nat) (readfds : fd_set) (s : state),
    let s' := exec (populate_from n i readfds) s in
    client_socket s' = client_socket s /\ trace s' = trace s
    /\ clock s' = clock s /\ exited s' = exited s.
Proof.
  induction n as [|n IH]; intros i readfds s; cbv zeta; [now cbn|].
  cbn [populate_from]. run.
  destruct (0 <? slot (client_socket s) i); cbn;
    destruct (max_fd s <? slot (client_socket s) i); cbn;
    match goal with
    | |- context [populate_from n (S i) ?r ?s1] =>
        destruct (IH (S i) r s1) as (H1 & H2 & H3 & H4)
    end; unfold exec in *; rewrite H1, H2, H3, H4; now cbn.
Qed.

(** One turn of the loop up to the test of what [select] returned. *)
Lemma iteration_step (s : state) :
  exec (iteration o) s =
    let s0 := exec build_readfds s in
    let readfds0 := fst (build_readfds s) in
    let s1 := emit (LogWaiting (max_fd s0 + 1)) s0 in
    let sel := sys_select o (max_fd s0 + 1) readfds0 s1 in
    let readfds := snd (fst sel) in
    if (fst (fst sel) <? 0) && negb (errno (snd sel) =? EINTR)
    then emit PerrorSelect (snd sel)
    else exec (dispatch o readfds) (snd sel).
Proof.
  unfold iteration. do 5 rewrite exec_bind. cbn [gets printf modify fst snd].
  cbv zeta. change (exec build_readfds s) with (snd (build_readfds s)).
  destruct (_ && _); reflexivity.
Qed.

(** X5: a wait that fails with an error other than [EINTR]: the error is
    reported, nothing is dispatched and the turn ends; the table and the
    process are as before. *)
Lemma iteration_select_error (s : state) (e : Z) :
  select_res o (clock s) = SelError e ->
  e <> EINTR ->
  let s' := exec (iteration o) s in
  events_of (iteration o) s = [Select (max_fd s' + 1)]
  /\ last (out s') = Some PerrorSelect
  /\ client_socket s' = client_socket s
  /\ exited s' = exited s.
Proof.
  intros Hsel He. cbv zeta.
  destruct (populate_from_frame MAX_CLIENTS 0%nat
              (FD_SET (listener_sfd s) (FD_SET STDIN_FILENO FD_ZERO)) s)
    as (H1 & H2 & H3 & H4).
  change (exec (populate_from _ _ _) s) with (exec build_readfds s) in H1, H2, H3, H4.
  assert (Hexec : exec (iteration o) s =
            emit PerrorSelect
              (set_errno e
                 (syscall (Select (max_fd (exec build_readfds s) + 1))
                    (emit (LogWaiting (max_fd (exec build_readfds s) + 1))
                       (exec build_readfds s))))).
  { rewrite iteration_step. cbv zeta. unfold sys_select.
    change (clock (emit ?l ?x)) with (clock x). rewrite H3, Hsel.
    cbn [fst snd errno set_errno].
    replace (e =? EINTR) with false by (symmetry; now apply Z.eqb_neq).
    reflexivity. }
  split; [apply events_of_app|]; rewrite Hexec; cbn; [now rewrite H2|].
  rewrite last_snoc. auto.
Qed.



End Teardown.

(** ** A wait that fails *)



(** ** Concrete runs *)

(** C1: with two clients connected, the line [quit] on standard input is
    recognised and reported, and that is all: no descriptor is closed, the
    process does not exit, and on the next turn the server relays a message
    as before. *)
Theorem quit_does_not_shut_down :
  let o := scripted [ASelect (SelReady [0]); ANone;
                     ASelect (SelReady [5]); ARecv (RecvBytes hello);
                     ASend 3; ASend 5] in
  let s' := exec (main_loop o 2) (serving table_two (line "quit")) in
  trace s' = [Select 6; Fgets 16;
              Select 6; Recv 5 256 5; Send 5 ACK 3; Send 4 hello 5]
  /\ In LogQuitReceived (out s')
  /\ closes (trace s') = []
  /\ exited s' = None
  /\ client_socket s' = table_two.
Proof.
  vm_compute. repeat split; auto 20.
Qed.

(** C2: slots 5, 6 and 7 are to receive a message from 4 and the send to 5
    fails: 5 is closed and released, and the broadcast returns there; 6 and 7
    are never sent the message. *)
Theorem broadcast_stops_at_failed_send :
  let o := scripted [ASend (-1); ANone; ASend 5; ASend 5] in
  let s' := exec (broadcast_message o 4 hello 5) (serving table_four "") in
  trace s' = [Send 5 hello (-1); Close 5]
  /\ client_socket s' = [4; 0; 6; 7; 0; 0; 0; 0; 0; 0].
Proof.
  vm_compute. split; reflexivity.
Qed.

(** C3: the table is full and a further connection is accepted as
    descriptor 14: no slot takes it, nothing is sent to it, and it is not
    closed either; the turn ends with the connection left open. *)
Theorem full_table_leaves_connection_open :
  let o := scripted [ASelect (SelReady [3]); AAccept 14] in
  let s' := exec (iteration o) (serving table_full "") in
  trace s' = [Select 14; Accept 3 14]
  /\ closes (trace s') = []
  /\ client_socket s' = table_full.
Proof.
  vm_compute. repeat split; reflexivity.
Qed.

(** C4: a receive that fills the buffer returns 256, and the terminator is
    then stored at index 256 of an array whose last index is 255. *)
Theorem terminator_out_of_bounds :
  let data := repeat x61 256 in
  let o := scripted [ARecv (RecvBytes data); ASend 3; ASend 256] in
  recv_count (RecvBytes data) BUF_SIZE = 256
  /\ length (recv_fill (RecvBytes data) BUF_SIZE fresh_buffer) = 256%nat
  /\ store (recv_fill (RecvBytes data) BUF_SIZE fresh_buffer) 256 x00 = None
  /\ trace (exec (recv_slot o 0 [4]) (serving table_two "")) =
       [Recv 4 256 256; StoreOutOfBounds 256; Send 4 ACK 3; Send 5 data 256].
Proof.
  vm_compute. repeat split; reflexivity.
Qed.


(** The scenario of two clients: A (descriptor 4) and B (descriptor 5)
    connect, A sends "hello", A leaves, B sends "hello". *)
Example relay_scenario :
  let o := scripted [ASelect (SelReady [3]); AAccept 4;
                     ASelect (SelReady [3]); AAccept 5;
                     ASelect (SelReady [4]); ARecv (RecvBytes hello);
                     ASend 3; ASend 5;
                     ASelect (SelReady [4]); ARecv (RecvBytes []); ANone;
                     ASelect (SelReady [5]); ARecv (RecvBytes hello); ASend 3] in
  let s' := exec (main o 3 5) (boot "") in
  delivered (trace s') = [(4, ACK); (5, hello); (5, ACK)]
  /\ closes (trace s') = [4]
  /\ client_socket s' = [0; 5; 0; 0; 0; 0; 0; 0; 0; 0]
  /\ exited s' = None.
Proof.
  vm_compute. repeat split; reflexivity.
Qed.

(** A line of more than 14 characters is read in pieces, and each piece is
    judged on its own: the second read of this line begins with [quit]. *)
Example long_line_read_in_pieces :
  let s := serving table_two (line "0123456789abcdequit") in
  out (exec (bind (handle_stdin [0]) (fun _ => handle_stdin [0])) s) =
    [LogCommandIgnored; LogQuitReceived].
Proof.
  vm_compute. reflexivity.
Qed.

(** C5 as stated fails: with no send failure but a short write, a
    recipient is delivered less than the message. A message of five bytes
    arrives from descriptor 4, the transport takes the acknowledgement in
    full and two bytes of the send to descriptor 5: no [send] returned -1,
    and 5 has received [he] only. *)
Lemma short_write_truncates_delivery :
  ~ (forall (o : oracle) (s : state) (i : nat) (readfds : fd_set) (fd : Z)
            (data : list byte),
        length (client_socket s) = MAX_CLIENTS ->
        client_socket s !! i = Some fd ->
        0 < fd ->
        (forall j, client_socket s !! j = Some fd -> j = i) ->
        FD_ISSET fd readfds = true ->
        recv_res o (clock s) = RecvBytes data ->
        data <> [] ->
        no_send_failure (events_of (recv_slot o i readfds) s) ->
        delivered (events_of (recv_slot o i readfds) s) =
          (fd, ACK) :: map (fun fd' => (fd', firstn (Z.to_nat BUF_SIZE) data))
                           (other_occupied (client_socket s) i)).
Proof.
  intros H.
  specialize (H (scripted [ARecv (RecvBytes hello); ASend 3; ASend 2])
                (serving table_two "") 0%nat [4] 4 hello).
  assert (Hdel : delivered
            (events_of (recv_slot (scripted [ARecv (RecvBytes hello); ASend 3; ASend 2])
                          0 [4]) (serving table_two "")) =
          [(4, ACK); (5, bytes_of "he")]) by (vm_compute; reflexivity).
  rewrite Hdel in H. discriminate H.
  - reflexivity.
  - reflexivity.
  - lia.
  - intros j Hj.
    do 10 (destruct j as [|j]; [first [reflexivity | discriminate Hj]|]).
    discriminate Hj.
  - reflexivity.
  - reflexivity.
  - discriminate.
  - vm_compute. repeat constructor; discriminate.
Qed.

(** Witnesses *)

Lemma broadcast_completeness_witness :
  let s := serving table_four "" in
  delivered (events_of (recv_slot (steady hello) 1 [5]) s) =
    [(5, ACK); (4, hello); (6, hello); (7, hello)]
  /\ S (length (other_occupied (client_socket s) 1)) = occupied_count (client_socket s)
  /\ client_socket (exec (recv_slot (steady hello) 1 [5]) s) = client_socket s.
Proof.
  apply (broadcast_completeness (steady hello) (serving table_four "") 1 [5] 5 hello).
  - reflexivity.
  - reflexivity.
  - lia.
  - intros j Hj.
    do 10 (destruct j as [|j]; [first [reflexivity | discriminate Hj]|]).
    discriminate Hj.
  - reflexivity.
  - reflexivity.
  - discriminate.
  - intros t. cbn. lia.
Defined.


Lemma recv_slot_disconnect_witness :
  let o := scripted [ARecv (RecvBytes [])] in
  let s := serving table_two "" in
  let s' := exec (recv_slot o 0 [4]) s in
  events_of (recv_slot o 0 [4]) s = [Recv 4 BUF_SIZE 0; Close 4]
  /\ client_socket s' = [0; 5; 0; 0; 0; 0; 0; 0; 0; 0]
  /\ client_socket s' !! 0%nat = Some 0
  /\ (forall j, j <> 0%nat -> client_socket s' !! j = client_socket s !! j)
  /\ exited s' = exited s
  /\ (forall n, exec (recv_from o (S n) 0 [4]) s = exec (recv_from o n 1 [4]) s').
Proof.
  apply (recv_slot_disconnect (scripted [ARecv (RecvBytes [])])
           (serving table_two "") 0 [4] 4).
  - reflexivity.
  - lia.
  - reflexivity.
  - vm_compute. discriminate.
Defined.

Lemma recv_slot_ack_witness :
  let s := serving table_two "" in
  exists (buffer_test : list byte) (s_ack : state),
    trace s_ack = [Recv 4 BUF_SIZE 5; Send 4 [x41; x43; x4b] 3]
    /\ client_socket s_ack = table_two
    /\ firstn 5 buffer_test = hello
    /\ exec (recv_slot (steady hello) 0 [4]) s =
         exec (broadcast_message (steady hello) 4 buffer_test 5) s_ack
    /\ events_of (recv_slot (steady hello) 0 [4]) s =
         [Recv 4 BUF_SIZE 5; Send 4 [x41; x43; x4b] 3] ++
           events_of (broadcast_message (steady hello) 4 buffer_test 5) s_ack.
Proof.
  apply (recv_slot_ack (steady hello) (serving table_two "") 0 [4] 4 hello).
  - reflexivity.
  - lia.
  - reflexivity.
  - reflexivity.
  - discriminate.
Defined.

Lemma quit_directive_prefix_witness :
  let s := serving table_two (line "quitter") in
  let s1 := snd (sys_fgets 16 s) in
  exec (handle_stdin [0]) s = emit LogQuitReceived s1
  /\ stdin s = String.append (line "quitter") (stdin s1)
  /\ (1 <= String.length (line "quitter") <= 15)%nat
  /\ (forall l rest : string,
        stdin s = String.append (line l) rest ->
        no_newline l = true ->
        (String.length l <= 14)%nat ->
        line "quitter" = line l).
Proof.
  apply (quit_directive_prefix (serving table_two (line "quitter"))
           (snd (sys_fgets 16 (serving table_two (line "quitter"))))
           [0] (line "quitter")).
  - reflexivity.
  - reflexivity.
Defined.

(** * Beyond the relay loop: set-up, teardown and the client programs *)

(** ** Sockets left open by a set-up *)

Lemma still_open_app (evs1 evs2 : list net_event) :
  still_open (evs1 ++ evs2) = fold_left net_step evs2 (still_open evs1).
Proof. apply fold_left_app. Qed.

Lemma remove_first_head (fd : Z) (fds : list Z) : remove_first fd (fd :: fds) = fds.
Proof. cbn. now rewrite Z.eqb_refl. Qed.

Lemma net_step_socket (fd : Z) (fds : list Z) :
  fd <> -1 -> net_step fds (Socket fd) = fd :: fds.
Proof.
  intros H. cbn. now replace (fd =? -1) with false by (symmetry; now apply Z.eqb_neq).
Qed.

(** ** setup_listener *)

(** A bind loop that ends with a socket: the entries before the one it
    settled on were passed over, their sockets closed again. *)
Lemma bind_loop_found (servinfo : list addr) :
  forall (rv : Z) (evs : list net_event),
    bind_loop servinfo = (Found rv, evs) ->
    (exists pre p rest,
        servinfo = pre ++ p :: rest /\ Forall unbindable pre
        /\ socket_res p = rv /\ rv <> -1
        /\ setsockopt_res p <> -1 /\ bind_res p <> -1)
    /\ forall acc, fold_left net_step evs acc = rv :: acc.
Proof.
  induction servinfo as [|q servinfo IH]; intros rv evs H; cbn in H; [discriminate|].
  destruct (socket_res q =? -1) eqn:Hs.
  - apply Z.eqb_eq in Hs. destruct (bind_loop servinfo) as [r evs'].
    injection H as -> <-.
    destruct (IH rv evs' eq_refl) as [(pre & p & rest & -> & Hpre & Hp) Hopen].
    split.
    + exists (q :: pre), p, rest. repeat split; try tauto.
      constructor; [now left | exact Hpre].
    + intros acc. cbn. rewrite Hs. cbn. apply Hopen.
  - apply Z.eqb_neq in Hs.
    destruct (setsockopt_res q =? -1) eqn:Ho; [discriminate|]. apply Z.eqb_neq in Ho.
    destruct (bind_res q =? -1) eqn:Hb.
    + apply Z.eqb_eq in Hb. destruct (bind_loop servinfo) as [r evs'].
      injection H as -> <-.
      destruct (IH rv evs' eq_refl) as [(pre & p & rest & -> & Hpre & Hp) Hopen].
      split.
      * exists (q :: pre), p, rest. repeat split; try tauto.
        constructor; [right; tauto | exact Hpre].
      * intros acc. cbn [fold_left]. rewrite net_step_socket by exact Hs.
        cbn [net_step]. rewrite remove_first_head. apply Hopen.
    + apply Z.eqb_neq in Hb. injection H as <- <-. split.
      * exists [], q, servinfo. repeat split; auto.
      * intros acc. cbn [fold_left]. now rewrite net_step_socket by exact Hs.
Qed.

(** A bind loop over entries that cannot be bound reaches the end of the
    list, every socket it opened closed again. *)
Lemma bind_loop_unbindable (servinfo : list addr) :
  Forall unbindable servinfo ->
  exists evs, bind_loop servinfo = (NotFound, evs)
              /\ forall acc, fold_left net_step evs acc = acc.
Proof.
  induction 1 as [|q servinfo Hq _ IH]; [exists []; split; auto|].
  destruct IH as (evs & Hloop & Hopen). cbn. rewrite Hloop.
  destruct (socket_res q =? -1) eqn:Hs.
  - eexists. split; [reflexivity|]. intros acc. cbn. rewrite Hs. apply Hopen.
  - apply Z.eqb_neq in Hs. destruct Hq as [Hq | [Ho Hb]]; [contradiction|].
    replace (setsockopt_res q =? -1) with false by (symmetry; now apply Z.eqb_neq).
    rewrite Hb. cbn [Z.eqb Pos.eqb].
    eexists. split; [reflexivity|]. intros acc.
    cbn [fold_left]. rewrite net_step_socket by exact Hs.
    cbn [net_step]. rewrite remove_first_head. apply Hopen.
Qed.

(** X9: when [setup_listener] returns a descriptor other than 0,
    [getaddrinfo] and [listen] succeeded, the descriptor is the socket of
    the first address on which [socket], [setsockopt] and [bind] all
    succeeded, every address before it was passed over, and the returned
    socket is the only one the function leaves open. *)
Theorem setup_listener_success (gai : Z) (servinfo : list addr) (listen_res rv : Z) :
  fst (setup_listener gai servinfo listen_res) = rv ->
  rv <> 0 ->
  gai = 0 /\ listen_res = 0
  /\ (exists pre p rest,
         servinfo = pre ++ p :: rest /\ Forall unbindable pre
         /\ socket_res p = rv /\ rv <> -1
         /\ setsockopt_res p <> -1 /\ bind_res p <> -1)
  /\ still_open (snd (setup_listener gai servinfo listen_res)) = [rv].
Proof.
  unfold setup_listener. intros Hrv Hnz.
  destruct (gai =? 0) eqn:Hg; cbn [negb] in *; [|cbn in Hrv; congruence].
  apply Z.eqb_eq in Hg.
  destruct (bind_loop servinfo) as [[fd| |] evs] eqn:Hloop;
    try (cbn in Hrv; congruence).
  destruct (listen_res =? 0) eqn:Hl; cbn [negb] in *; [|cbn in Hrv; congruence].
  apply Z.eqb_eq in Hl. cbn [fst snd] in *. subst fd.
  destruct (bind_loop_found servinfo rv evs Hloop) as [Hfound Hopen].
  repeat split; try assumption.
  unfold still_open. cbn [fold_left net_step]. rewrite fold_left_app, Hopen.
  reflexivity.
Qed.

(** X10: when no address of the list can be bound, [setup_listener] returns
    0 with every socket it opened closed again, and the server ends with
    status 1 before its first [select]: its one system call is that
    [exit]. *)
Theorem server_without_listener (o : oracle) (gai : Z) (servinfo : list addr)
    (listen_res : Z) (turns : nat) (input : string) :
  Forall unbindable servinfo ->
  let s' := exec (server o gai servinfo listen_res turns) (boot input) in
  fst (setup_listener gai servinfo listen_res) = 0
  /\ still_open (snd (setup_listener gai servinfo listen_res)) = []
  /\ exited s' = Some 1
  /\ trace s' = [Exit 1].
Proof.
  intros Hall. cbv zeta.
  assert (Hsetup : fst (setup_listener gai servinfo listen_res) = 0
                   /\ still_open (snd (setup_listener gai servinfo listen_res)) = []).
  { unfold setup_listener. destruct (gai =? 0); cbn [negb]; [|split; reflexivity].
    destruct (bind_loop_unbindable servinfo Hall) as (evs & -> & Hopen).
    split; [reflexivity|]. cbn [snd]. unfold still_open.
    cbn [fold_left net_step]. now rewrite fold_left_app, Hopen. }
  destruct Hsetup as [Hz Hopen]. repeat split; try assumption;
    unfold server; rewrite Hz; reflexivity.
Qed.

(** ** The connect loops of the clients *)

Lemma test_connect_loop_spec (res : list addr) :
  match ClientTest.connect_loop res with
  | (Found fd, evs) =>
      (exists pre p rest,
          res = pre ++ p :: rest /\ Forall unreachable pre
          /\ socket_res p = fd /\ fd <> -1 /\ connect_res p <> -1)
      /\ forall acc, fold_left net_step evs acc = fd :: acc
  | (NotFound, evs) =>
      Forall unreachable res /\ forall acc, fold_left net_step evs acc = acc
  | (Aborted, _) => False
  end.
Proof.
  induction res as [|q res IH]; cbn; [split; auto|].
  destruct (socket_res q =? -1) eqn:Hs.
  - apply Z.eqb_eq in Hs.
    destruct (ClientTest.connect_loop res) as [[fd| |] evs]; [| |contradiction].
    + destruct IH as [(pre & p & rest & -> & Hpre & Hp) Hopen]. split.
      * exists (q :: pre), p, rest. repeat split; try tauto.
        constructor; [now left | exact Hpre].
      * intros acc. cbn. rewrite Hs. cbn. apply Hopen.
    + destruct IH as [Hall Hopen]. split.
      * constructor; [now left | exact Hall].
      * intros acc. cbn. rewrite Hs. cbn. apply Hopen.
  - apply Z.eqb_neq in Hs. destruct (connect_res q =? -1) eqn:Hc.
    + apply Z.eqb_eq in Hc.
      destruct (ClientTest.connect_loop res) as [[fd| |] evs]; [| |contradiction].
      * destruct IH as [(pre & p & rest & -> & Hpre & Hp) Hopen]. split.
        -- exists (q :: pre), p, rest. repeat split; try tauto.
           constructor; [now right | exact Hpre].
        -- intros acc. cbn [fold_left]. rewrite net_step_socket by exact Hs.
           cbn [net_step]. rewrite remove_first_head. apply Hopen.
      * destruct IH as [Hall Hopen]. split.
        -- constructor; [now right | exact Hall].
        -- intros acc. cbn [fold_left]. rewrite net_step_socket by exact Hs.
           cbn [net_step]. rewrite remove_first_head. apply Hopen.
    + apply Z.eqb_neq in Hc. split.
      * exists [], q, res. repeat split; auto.
      * intros acc. cbn [fold_left]. now rewrite net_step_socket by exact Hs.
Qed.

(** X11: [setup_connection] of client_test.c returns either -1, when
    [getaddrinfo] failed or no address could be connected, leaving no socket
    open; or the socket of the first address on which [socket] and [connect]
    both succeeded, which is then the only socket left open. *)
Theorem setup_connection_result (gai : Z) (res : list addr) :
  let fd := fst (ClientTest.setup_connection gai res) in
  let left_open := still_open (snd (ClientTest.setup_connection gai res)) in
  (fd = -1 /\ left_open = [] /\ (gai <> 0 \/ Forall unreachable res))
  \/ (fd <> -1 /\ left_open = [fd] /\ gai = 0
      /\ exists pre p rest,
           res = pre ++ p :: rest /\ Forall unreachable pre
           /\ socket_res p = fd /\ connect_res p <> -1).
Proof.
  cbv zeta. unfold ClientTest.setup_connection.
  destruct (gai =? 0) eqn:Hg; cbn [negb].
  - apply Z.eqb_eq in Hg. pose proof (test_connect_loop_spec res) as Hspec.
    destruct (ClientTest.connect_loop res) as [[fd| |] evs]; [| |contradiction].
    + destruct Hspec as [(pre & p & rest & Hres & Hpre & Hp & Hfd & Hc) Hopen].
      right. cbn [fst snd]. repeat split; try assumption.
      * unfold still_open. cbn [fold_left net_step].
        now rewrite fold_left_app, Hopen.
      * exists pre, p, rest. tauto.
    + destruct Hspec as [Hall Hopen]. left. cbn [fst snd]. repeat split.
      * unfold still_open. cbn [fold_left net_step].
        now rewrite fold_left_app, Hopen.
      * now right.
  - apply Z.eqb_neq in Hg. left. repeat split. now left.
Qed.

Lemma client1_connect_loop_spec (res : list addr) :
  forall cfd : Z,
    match Client1.connect_loop res cfd with
    | (Found fd, cfd', evs) =>
        (exists pre p rest,
            res = pre ++ p :: rest /\ Forall unreachable pre
            /\ socket_res p = fd /\ fd <> -1 /\ connect_res p = cfd' /\ cfd' <> -1)
        /\ forall acc, fold_left net_step evs acc = fd :: acc
    | (NotFound, cfd', evs) =>
        Forall unreachable res
        /\ (cfd = -1 -> cfd' = -1)
        /\ forall acc, fold_left net_step evs acc = acc
    | (Aborted, _, _) => False
    end.
Proof.
  induction res as [|q res IH]; intros cfd; cbn; [repeat split; auto|].
  destruct (socket_res q =? -1) eqn:Hs.
  - apply Z.eqb_eq in Hs. specialize (IH cfd).
    destruct (Client1.connect_loop res cfd) as [[[fd| |] cfd'] evs]; [| |contradiction].
    + destruct IH as [(pre & p & rest & -> & Hpre & Hp) Hopen]. split.
      * exists (q :: pre), p, rest. repeat split; try tauto.
        constructor; [now left | exact Hpre].
      * intros acc. cbn. rewrite Hs. cbn. apply Hopen.
    + destruct IH as (Hall & Hcfd & Hopen). repeat split.
      * constructor; [now left | exact Hall].
      * exact Hcfd.
      * intros acc. cbn. rewrite Hs. cbn. apply Hopen.
  - apply Z.eqb_neq in Hs. destruct (connect_res q =? -1) eqn:Hc.
    + apply Z.eqb_eq in Hc. specialize (IH (connect_res q)).
      destruct (Client1.connect_loop res (connect_res q)) as [[[fd| |] cfd'] evs];
        [| |contradiction].
      * destruct IH as [(pre & p & rest & -> & Hpre & Hp) Hopen]. split.
        -- exists (q :: pre), p, rest. repeat split; try tauto.
           constructor; [now right | exact Hpre].
        -- intros acc. cbn [fold_left]. rewrite net_step_socket by exact Hs.
           cbn [net_step]. rewrite remove_first_head. apply Hopen.
      * destruct IH as (Hall & Hcfd & Hopen). repeat split.
        -- constructor; [now right | exact Hall].
        -- intros _. now apply Hcfd.
        -- intros acc. cbn [fold_left]. rewrite net_step_socket by exact Hs.
           cbn [net_step]. rewrite remove_first_head. apply Hopen.
    + apply Z.eqb_neq in Hc. split.
      * exists [], q, res. repeat split; auto.
      * intros acc. cbn [fold_left]. now rewrite net_step_socket by exact Hs.
Qed.

(** ** Running the client monad *)

Lemma cexec_cbind {A B : Type} (m : CM A) (k : A -> CM B) (c : client) :
  cexec (cbind m k) c = cexec (k (fst (m c))) (snd (m c)).
Proof. unfold cexec, cbind. destruct (m c); reflexivity. Qed.

Lemma cbind_run {A B : Type} (m : CM A) (k : A -> CM B) (c : client) :
  cbind m k c = k (fst (m c)) (snd (m c)).
Proof. unfold cbind. destruct (m c); reflexivity. Qed.

Lemma cevents_of_app {A : Type} (m : CM A) (c : client) (evs : list event) :
  cl_trace (cexec m c) = cl_trace c ++ evs -> cevents_of m c = evs.
Proof. intros H. unfold cevents_of. rewrite H. apply drop_app_length. Qed.

Lemma couts_of_app {A : Type} (m : CM A) (c : client) (ls : list clog) :
  cl_out (cexec m c) = cl_out c ++ ls -> couts_of m c = ls.
Proof. intros H. unfold couts_of. rewrite H. apply drop_app_length. Qed.

(** ** The invariant of the clients' loops *)

Section ClientInvariant.

Variable fd : Z.
Variable allowed : clog -> Prop.

Lemma inv_emit (l : clog) (c : client) :
  allowed l -> client_inv fd allowed c -> client_inv fd allowed (cl_emit l c).
Proof.
  intros Hl (H1 & H2 & H3 & H4). repeat split; try assumption.
  cbn. apply Forall_app. split; [exact H4 | now constructor].
Qed.

Lemma inv_syscall (e : event) (c : client) :
  io_event e -> client_inv fd allowed c -> client_inv fd allowed (cl_syscall e c).
Proof.
  intros He (H1 & H2 & H3 & H4). repeat split; try assumption.
  cbn. apply Forall_app. split; [exact H3 | now constructor].
Qed.

Lemma inv_running (r : Z) (c : client) :
  client_inv fd allowed c -> client_inv fd allowed (set_running r c).
Proof. intros (H1 & H2 & H3 & H4). repeat split; assumption. Qed.

Lemma inv_errno (e : Z) (c : client) :
  client_inv fd allowed c -> client_inv fd allowed (set_cl_errno e c).
Proof. intros (H1 & H2 & H3 & H4). repeat split; assumption. Qed.

Lemma inv_stdin (i : string) (c : client) :
  client_inv fd allowed c -> client_inv fd allowed (set_cl_stdin i c).
Proof. intros (H1 & H2 & H3 & H4). repeat split; assumption. Qed.

Lemma inv_select (o : oracle) (nfds : Z) (readfds : fd_set) (c : client) :
  client_inv fd allowed c ->
  client_inv fd allowed (snd (cl_select o nfds readfds c)).
Proof.
  intros Hc. unfold cl_select.
  destruct (select_res o (cl_clock c)); cbn [snd];
    [|apply inv_errno]; now apply inv_syscall.
Qed.

Lemma inv_fgets (size : Z) (c : client) :
  client_inv fd allowed c -> client_inv fd allowed (snd (cl_fgets size c)).
Proof.
  intros Hc. unfold cl_fgets.
  destruct (cl_stdin c); [now apply inv_syscall|].
  destruct (fgets_take _ _). cbn [snd]. now apply inv_stdin, inv_syscall.
Qed.

End ClientInvariant.

(** ** The record of the set-up is left alone by the loops *)












(** ** Buffers that leave room for the terminator *)

Lemma recv_count_le (a : recv_outcome) (size : Z) :
  0 <= size -> recv_count a size <= size.
Proof.
  intros Hsize. destruct a as [|data]; cbn; [lia|].
  rewrite length_take. lia.
Qed.

Lemma recv_fill_length (a : recv_outcome) (size : Z) (n : nat) :
  0 <= size <= Z.of_nat n ->
  length (recv_fill a size (repeat x00 n)) = n.
Proof.
  intros Hsize. destruct a as [|data]; cbn [recv_fill]; [apply repeat_length|].
  rewrite length_app, length_drop, repeat_length, length_take. lia.
Qed.

(** A receive bounded by one byte less than the array: the terminator
    [buf[n] = 0] after [n > 0] bytes is inside the array. *)
Lemma store_after_short_recv (a : recv_outcome) (N : Z) :
  0 < N ->
  0 < recv_count a (N - 1) ->
  is_Some (store (recv_fill a (N - 1) (repeat x00 (Z.to_nat N)))
             (recv_count a (N - 1)) x00).
Proof.
  intros HN Hpos. unfold store.
  rewrite recv_fill_length by lia.
  pose proof (recv_count_le a (N - 1) ltac:(lia)) as Hle.
  replace (0 <=? _) with true by (symmetry; apply Z.leb_le; lia).
  replace (_ <? Z.of_nat (Z.to_nat N)) with true by (symmetry; apply Z.ltb_lt; lia).
  cbn [andb]. eauto.
Qed.

(** ** client_test.c: the loop *)

Section ClientTestLoop.

Variable o : oracle.
Variable fd : Z.

Lemma test_handle_server_inv (readfds : fd_set) (c : client) :
  client_inv fd any_message c ->
  client_inv fd any_message (snd (ClientTest.handle_server o readfds c)).
Proof.
  intros Hc. unfold ClientTest.handle_server. rewrite cbind_run.
  cbn [cgets fst snd]. destruct (FD_ISSET (sockfd c) readfds); [|exact Hc].
  rewrite cbind_run. unfold cl_recv. cbn [fst snd].
  set (a := recv_res o (cl_clock c)).
  set (c1 := cl_syscall _ c).
  assert (Hc1 : client_inv fd any_message c1) by (now apply inv_syscall).
  destruct (recv_count a (ClientTest.BUF_SIZE - 1) =? 0) eqn:H0.
  { rewrite cbind_run. cbn. now apply inv_running, inv_emit. }
  destruct (recv_count a (ClientTest.BUF_SIZE - 1) <? 0) eqn:Hneg.
  { rewrite cbind_run. cbn. now apply inv_running, inv_emit. }
  apply Z.eqb_neq in H0. apply Z.ltb_ge in Hneg.
  destruct (store_after_short_recv a ClientTest.BUF_SIZE eq_refl ltac:(lia))
    as [buf Hbuf].
  rewrite cbind_run. unfold cl_store_checked. rewrite Hbuf.
  cbn [cret fst snd]. rewrite cbind_run. cbn.
  now apply inv_emit, inv_emit.
Qed.

Lemma test_handle_input_inv (readfds : fd_set) (c : client) :
  client_inv fd any_message c ->
  client_inv fd any_message (snd (ClientTest.handle_input o readfds c)).
Proof.
  intros Hc. unfold ClientTest.handle_input.
  destruct (FD_ISSET STDIN_FILENO readfds); [|exact Hc].
  rewrite cbind_run.
  pose proof (inv_fgets fd any_message ClientTest.MAX_MESSAGE_LENGTH c Hc) as Hc1.
  destruct (cl_fgets ClientTest.MAX_MESSAGE_LENGTH c) as [[send_buffer|] c1];
    cbn [fst snd] in *; [|exact Hc1].
  destruct (ClientTest.quits send_buffer).
  { cbn. now apply inv_running, inv_emit. }
  destruct (0 <? _)%nat; [|cbn; now apply inv_emit].
  rewrite cbind_run. cbn [cgets fst snd]. rewrite cbind_run.
  unfold cl_send. cbn [fst snd].
  match goal with
  | |- context [cl_syscall ?e c1] =>
      assert (Hc2 : client_inv fd any_message (cl_syscall e c1))
        by (now apply inv_syscall)
  end.
  destruct (_ =? -1); cbn.
  - now apply inv_running, inv_emit.
  - now apply inv_emit, inv_emit.
Qed.

Lemma test_iteration_inv (max_fd : Z) (c : client) :
  client_inv fd any_message c ->
  client_inv fd any_message (snd (ClientTest.iteration o max_fd c)).
Proof.
  intros Hc. unfold ClientTest.iteration. rewrite cbind_run. cbn [cgets fst snd].
  rewrite cbind_run.
  pose proof (inv_select fd any_message o (max_fd + 1)
                (FD_SET (sockfd c) (FD_SET STDIN_FILENO FD_ZERO)) c Hc) as Hc1.
  destruct (cl_select o (max_fd + 1) _ c) as [[activity read_fds] c1].
  cbn [fst snd] in *. rewrite cbind_run. cbn [cgets fst snd].
  destruct (_ && _).
  - cbn. now apply inv_emit.
  - rewrite cbind_run. apply test_handle_input_inv. now apply test_handle_server_inv.
Qed.

Lemma test_loop_inv (max_fd : Z) (turns : nat) :
  forall c : client,
    client_inv fd any_message c ->
    client_inv fd any_message (snd (ClientTest.loop o max_fd turns c)).
Proof.
  induction turns as [|n IH]; intros c Hc; cbn [ClientTest.loop];
    rewrite cbind_run; cbn [cgets fst snd]; [exact Hc|].
  destruct (running c =? 0); [exact Hc|].
  rewrite cbind_run.
  pose proof (test_iteration_inv max_fd c Hc) as Hc1.
  destruct (ClientTest.iteration o max_fd c) as [[|] c1]; cbn [fst snd] in *;
    [exact Hc1 | now apply IH].
Qed.

End ClientTestLoop.


Lemma io_events_in_bounds (tr : list event) :
  Forall io_event tr -> Forall (fun e => ~ is_out_of_bounds e) tr.
Proof.
  intros H. eapply Forall_impl; [exact H|].
  intros e He Hoob. destruct e; cbn in *; contradiction.
Qed.



(** X13: in no run of client_test.c's [main] is a terminator stored outside
    its buffer: the receive is bounded by [BUF_SIZE - 1]. *)
Theorem client_test_stores_in_bounds (o : oracle) (sig_ok : bool) (gai : Z)
    (res : list addr) (turns : nat) (input : string) :
  Forall (fun e => ~ is_out_of_bounds e)
    (cl_trace (cexec (ClientTest.main o sig_ok gai res turns) (client_boot input))).
Proof.
  unfold ClientTest.main.
  destruct sig_ok; cbn [negb]; [|cbn; constructor].
  rewrite cexec_cbind. cbn [cprintf cmodify fst snd].
  destruct (ClientTest.setup_connection gai res) as [g_sockfd evs].
  do 2 rewrite cexec_cbind. cbn [cmodify fst snd].
  destruct (g_sockfd =? -1) eqn:Hfd; [cbn; constructor|].
  apply Z.eqb_neq in Hfd.
  do 3 rewrite cexec_cbind. cbn [cprintf cmodify fst snd].
  match goal with
  | |- context [ClientTest.loop o ?m turns ?c0] =>
      assert (Hinv : client_inv g_sockfd any_message c0)
        by (repeat split; cbn; repeat constructor);
      pose proof (test_loop_inv o g_sockfd m turns c0 Hinv) as Hloop;
      destruct (ClientTest.loop o m turns c0) as [ended c1]
  end.
  cbn [fst snd] in *. destruct Hloop as (Hs & He & Htr & _).
  apply io_events_in_bounds in Htr.
  destruct ended; [|exact Htr].
  unfold ClientTest.cleanup_and_exit. do 2 rewrite cexec_cbind.
  cbn [cprintf cmodify cgets fst snd]. change (sockfd (cl_emit _ c1)) with (sockfd c1).
  destruct (negb _); cbn; repeat (apply Forall_app; split); try exact Htr;
    repeat constructor; intros [].
Qed.

(** ** C strings *)

Lemma strlen_set_char_NUL (s : string) :
  forall k : nat, (k < strlen s)%nat -> strlen (set_char s k NUL) = k.
Proof.
  induction s as [|c s IH]; intros k Hk; cbn in Hk; [lia|].
  destruct (Ascii.eqb c NUL) eqn:Hc; [lia|].
  destruct k as [|k]; cbn; [reflexivity|].
  rewrite Hc. f_equal. apply IH. lia.
Qed.

Lemma strlen_chomp_le (buf : string) : (strlen (chomp buf) <= strlen buf)%nat.
Proof.
  unfold chomp, has_newline.
  destruct (0 <? strlen buf)%nat eqn:Hlen; cbn [andb]; [|lia].
  apply Nat.ltb_lt in Hlen.
  destruct (Ascii.eqb _ newline); [|lia].
  rewrite strlen_set_char_NUL; lia.
Qed.

Lemma send_result_le (o : oracle) (t : nat) (len : Z) :
  0 <= len -> send_result o t len <= len.
Proof.
  intros Hlen. unfold send_result. destruct (send_res o t <? 0); lia.
Qed.

(** ** client1.c: the loop *)

Section Client1Loop.

Variable o : oracle.
Variable fd : Z.

Lemma client1_handle_input_inv (readfds : fd_set) (c : client) :
  client_inv fd not_sent_success c ->
  client_inv fd not_sent_success (snd (Client1.handle_input o readfds c)).
Proof.
  intros Hc. unfold Client1.handle_input.
  destruct (FD_ISSET STDIN_FILENO readfds); [|exact Hc].
  rewrite cbind_run.
  pose proof (inv_fgets fd not_sent_success Client1.MAX_MESSAGE_LENGTH c Hc) as Hc1.
  destruct (cl_fgets Client1.MAX_MESSAGE_LENGTH c) as [[message_buffer|] c1];
    cbn [fst snd] in *.
  - rewrite cbind_run. cbn [cgets fst snd]. rewrite cbind_run.
    unfold cl_send. cbn [fst snd].
    set (numbytes := send_result o (cl_clock c1) (Z.of_nat (strlen (chomp message_buffer)))).
    match goal with
    | |- context [cl_syscall ?e c1] =>
        assert (Hc2 : client_inv fd not_sent_success (cl_syscall e c1))
          by (now apply inv_syscall)
    end.
    rewrite cbind_run.
    assert (Hlt : numbytes < Z.of_nat (strlen message_buffer) + 1).
    { pose proof (send_result_le o (cl_clock c1)
                    (Z.of_nat (strlen (chomp message_buffer))) ltac:(lia)).
      pose proof (strlen_chomp_le message_buffer). unfold numbytes. lia. }
    destruct (numbytes =? -1); [cbn; now apply inv_emit|].
    replace (numbytes <? _) with true by (symmetry; now apply Z.ltb_lt).
    cbn. now apply inv_emit.
  - rewrite cbind_run. cbn [cgets fst snd]. rewrite cbind_run.
    destruct (negb _); cbn; [now apply inv_emit | exact Hc1].
Qed.

Lemma client1_handle_socket_inv (readfds : fd_set) (c : client) :
  client_inv fd not_sent_success c ->
  client_inv fd not_sent_success (snd (Client1.handle_socket o readfds c)).
Proof.
  intros Hc. unfold Client1.handle_socket. rewrite cbind_run.
  cbn [cgets fst snd]. destruct (FD_ISSET (sockfd c) readfds); [|exact Hc].
  do 2 rewrite cbind_run. cbn [cprintf cmodify fst snd]. unfold cl_recv. cbn [fst snd].
  set (c0 := cl_emit MsgWaitingResponse c).
  set (a := recv_res o (cl_clock c0)).
  set (c1 := cl_syscall _ c0).
  assert (Hc1 : client_inv fd not_sent_success c1)
    by (apply inv_syscall; [exact I | now apply inv_emit]).
  destruct (recv_count a (Client1.MAX_MESSAGE_LENGTH - 1) =? -1) eqn:Hneg.
  { rewrite cbind_run. cbn. now apply inv_running, inv_emit. }
  destruct (recv_count a (Client1.MAX_MESSAGE_LENGTH - 1) =? 0) eqn:H0.
  { rewrite cbind_run. cbn. now apply inv_running, inv_emit. }
  apply Z.eqb_neq in H0. apply Z.eqb_neq in Hneg.
  assert (Hpos : 0 < recv_count a (Client1.MAX_MESSAGE_LENGTH - 1)).
  { destruct a as [|data]; cbn in *; lia. }
  destruct (store_after_short_recv a Client1.MAX_MESSAGE_LENGTH eq_refl Hpos)
    as [buf Hbuf].
  rewrite cbind_run. unfold cl_store_checked. rewrite Hbuf.
  cbn. now apply inv_emit.
Qed.

Lemma client1_iteration_inv (max_fd : Z) (c : client) :
  client_inv fd not_sent_success c ->
  client_inv fd not_sent_success (snd (Client1.iteration o max_fd c)).
Proof.
  intros Hc. unfold Client1.iteration. rewrite cbind_run. cbn [cgets fst snd].
  do 2 rewrite cbind_run. cbn [cprintf cmodify fst snd].
  assert (Hc0 : client_inv fd not_sent_success (cl_emit MsgPrompt c))
    by (now apply inv_emit).
  pose proof (inv_select fd not_sent_success o (max_fd + 1)
                (FD_SET (sockfd c) (FD_SET STDIN_FILENO FD_ZERO)) _ Hc0) as Hc1.
  destruct (cl_select o (max_fd + 1) _ (cl_emit MsgPrompt c))
    as [[activity readfds] c1].
  cbn [fst snd] in *. rewrite cbind_run. cbn [cgets fst snd].
  destruct (_ && _).
  - cbn. now apply inv_emit.
  - rewrite cbind_run.
    pose proof (client1_handle_input_inv readfds c1 Hc1) as Hc2.
    destruct (Client1.handle_input o readfds c1) as [[|] c2]; cbn [fst snd] in *;
      [exact Hc2|].
    rewrite cbind_run. cbn [cret snd]. now apply client1_handle_socket_inv.
Qed.

Lemma client1_loop_inv (max_fd : Z) (turns : nat) :
  forall c : client,
    client_inv fd not_sent_success c ->
    client_inv fd not_sent_success (snd (Client1.loop o max_fd turns c)).
Proof.
  induction turns as [|n IH]; intros c Hc; cbn [Client1.loop];
    rewrite cbind_run; cbn [cgets fst snd]; [exact Hc|].
  destruct (running c =? 0); [exact Hc|].
  rewrite cbind_run.
  pose proof (client1_iteration_inv max_fd c Hc) as Hc1.
  destruct (Client1.iteration o max_fd c) as [[|] c1]; cbn [fst snd] in *;
    [exact Hc1 | now apply IH].
Qed.

End Client1Loop.

(** What a run of client1.c's [main] comes to: it ended before the loop with
    status 1 or 2 and an empty trace, or it went through the loop from a
    state that satisfies the invariant and then, if the loop has ended,
    closed the socket and returned 0. *)
Lemma client1_main_run (o : oracle) (sig_ok : bool) (gai : Z) (res : list addr)
    (turns : nat) (input : string) :
  let c' := cexec (Client1.main o sig_ok gai res turns) (client_boot input) in
  ((cl_exited c' = Some 1 \/ cl_exited c' = Some 2)
   /\ cl_trace c' = [] /\ Forall not_sent_success (cl_out c'))
  \/ exists (fd : Z) (c1 : client) (ended : bool),
       client_inv fd not_sent_success c1
       /\ c' = if ended
               then set_cl_exited 0 (cl_emit MsgSocketClosed (cl_syscall (Close fd) c1))
               else c1.
Proof.
  cbv zeta. unfold Client1.main.
  destruct sig_ok; cbn [negb];
    [|left; cbn; repeat split; auto; repeat constructor].
  destruct (gai =? 0); cbn [negb];
    [|left; cbn; repeat split; auto; repeat constructor].
  pose proof (client1_connect_loop_spec res (-1)) as Hspec.
  destruct (Client1.connect_loop res (-1)) as [[[fd| |] cfd] evs]; [| |contradiction].
  - destruct Hspec as [(pre & p & rest & _ & _ & _ & Hfd & _) _].
    do 2 rewrite cexec_cbind. cbn [cprintf cmodify fst snd].
    replace (fd =? -1) with false by (symmetry; now apply Z.eqb_neq).
    do 4 rewrite cexec_cbind. cbn [cprintf cmodify fst snd].
    right.
    match goal with
    | |- context [Client1.loop o fd turns ?c0] =>
        assert (Hinv : client_inv fd not_sent_success c0)
          by (repeat split; cbn; repeat constructor);
        pose proof (client1_loop_inv o fd fd turns c0 Hinv) as Hloop;
        destruct (Client1.loop o fd turns c0) as [ended c1]
    end.
    cbn [fst snd] in *. exists fd, c1, ended. split; [exact Hloop|].
    destruct ended; reflexivity.
  - left. cbn. repeat split; auto; repeat constructor.
Qed.



(** X15: client1.c never reports a complete send: whatever is typed and
    whatever the transport does, no run of [main] prints the "[SENT
    SUCCESS]" message, because the count it compares with is one more than
    the length of the line before its newline was removed. *)
Theorem client1_never_reports_success (o : oracle) (sig_ok : bool) (gai : Z)
    (res : list addr) (turns : nat) (input : string) :
  Forall not_sent_success
    (cl_out (cexec (Client1.main o sig_ok gai res turns) (client_boot input))).
Proof.
  destruct (client1_main_run o sig_ok gai res turns input)
    as [(_ & _ & Hout) | (fd & c1 & ended & (_ & _ & _ & Hout) & ->)];
    [exact Hout|].
  destruct ended; [|exact Hout].
  cbn. apply Forall_app. split; [exact Hout | repeat constructor].
Qed.

(** X16: in no run of client1.c's [main] is a terminator stored outside its
    buffer: the receive is bounded by [MAX_MESSAGE_LENGTH - 1]. *)
Theorem client1_stores_in_bounds (o : oracle) (sig_ok : bool) (gai : Z)
    (res : list addr) (turns : nat) (input : string) :
  Forall (fun e => ~ is_out_of_bounds e)
    (cl_trace (cexec (Client1.main o sig_ok gai res turns) (client_boot input))).
Proof.
  destruct (client1_main_run o sig_ok gai res turns input)
    as [(_ & Htr & _) | (fd & c1 & ended & (_ & _ & Hio & _) & ->)];
    [rewrite Htr; constructor|].
  apply io_events_in_bounds in Hio.
  destruct ended; [|exact Hio].
  cbn. apply Forall_app. split; [exact Hio | repeat constructor; intros []].
Qed.

(** ** Lines in a buffer *)

Lemma cstr_no_NUL (l : string) : no_NUL l = true -> cstr l = l.
Proof.
  induction l as [|c l IH]; [reflexivity|]. cbn. intros H.
  apply andb_true_iff in H as [Hc Hl]. apply negb_true_iff in Hc.
  rewrite Hc. now rewrite IH.
Qed.

Lemma cstr_append_NUL (l t : string) :
  no_NUL l = true -> cstr (String.append l (String NUL t)) = l.
Proof.
  induction l as [|c l IH]; [reflexivity|]. cbn. intros H.
  apply andb_true_iff in H as [Hc Hl]. apply negb_true_iff in Hc.
  rewrite Hc. now rewrite IH.
Qed.

(** [strcmp] is 0 exactly on arrays that hold the same C string. *)
Lemma strcmp_zero (s1 : string) :
  forall s2 : string, strcmp s1 s2 = 0 <-> cstr s1 = cstr s2.
Proof.
  induction s1 as [|c1 s1 IH]; intros s2.
  - cbn [strcmp cstr]. destruct s2 as [|c2 s2]; cbn [char_at cstr]; [tauto|].
    destruct (Ascii.eqb_spec c2 NUL) as [->|Hc]; [tauto|].
    split; [|discriminate]. intros H. exfalso. apply Hc, uchar_inj. lia.
  - cbn [strcmp cstr].
    destruct (Ascii.eqb_spec c1 (char_at s2)) as [E|E]; cbn [negb].
    + destruct (Ascii.eqb_spec c1 NUL) as [->|Hc].
      * destruct s2 as [|c2 s2]; cbn [char_at cstr] in *; [tauto|].
        subst c2. cbn. tauto.
      * destruct s2 as [|c2 s2]; cbn [char_at advance cstr] in *; [congruence|].
        subst c2. destruct (Ascii.eqb_spec c1 NUL); [contradiction|].
        rewrite IH. split; [now intros -> | now intros [= ->]].
    + split.
      * intros H. exfalso. apply E, uchar_inj. lia.
      * intros H. exfalso. apply E.
        destruct (Ascii.eqb_spec c1 NUL) as [->|Hc].
        -- destruct s2 as [|c2 s2]; cbn [char_at cstr] in *; [reflexivity|].
           destruct (Ascii.eqb_spec c2 NUL); [congruence | discriminate].
        -- destruct s2 as [|c2 s2]; cbn [char_at cstr] in *; [discriminate|].
           destruct (Ascii.eqb_spec c2 NUL); [discriminate | congruence].
Qed.

Lemma strlen_append (l t : string) :
  no_NUL l = true -> strlen (String.append l t) = (String.length l + strlen t)%nat.
Proof.
  induction l as [|c l IH]; [reflexivity|]. cbn. intros H.
  apply andb_true_iff in H as [Hc Hl]. apply negb_true_iff in Hc.
  rewrite Hc. now rewrite IH.
Qed.

Lemma char_index_append (l t : string) :
  char_index (String.append l t) (String.length l) = char_index t 0.
Proof.
  induction l as [|c l IH]; [reflexivity|]. exact IH.
Qed.

Lemma set_char_append (l : string) (c x : ascii) (t : string) :
  set_char (String.append l (String c t)) (String.length l) x =
    String.append l (String x t).
Proof.
  induction l as [|c' l IH]; [reflexivity|]. cbn. now rewrite IH.
Qed.

Lemma strlen_line (l : string) :
  no_NUL l = true -> strlen (line l) = S (String.length l).
Proof.
  intros H. unfold line. rewrite strlen_append by exact H. cbn. lia.
Qed.

Lemma has_newline_line (l : string) : no_NUL l = true -> has_newline (line l) = true.
Proof.
  intros H. unfold has_newline. rewrite strlen_line by exact H.
  cbn [Nat.ltb Nat.leb andb]. replace (S (String.length l) - 1)%nat
    with (String.length l) by lia.
  unfold line. rewrite char_index_append. reflexivity.
Qed.

(** Removing the newline of a typed line leaves the line, NUL-terminated. *)
Lemma chomp_line (l : string) :
  no_NUL l = true -> chomp (line l) = String.append l (String NUL EmptyString).
Proof.
  intros H. unfold chomp. rewrite has_newline_line, strlen_line by exact H.
  replace (S (String.length l) - 1)%nat with (String.length l) by lia.
  unfold line. apply set_char_append.
Qed.

Lemma bytes_of_append_front (l t : string) :
  firstn (String.length l) (bytes_of (String.append l t)) = bytes_of l.
Proof.
  unfold bytes_of. induction l as [|c l IH]; [now destruct t|].
  cbn. now rewrite IH.
Qed.

(** On a buffer that holds a whole typed line, the test for the quit
    command of client_test.c succeeds exactly when the line is [/quit]. *)
Lemma quits_line (l : string) :
  no_NUL l = true ->
  ClientTest.quits (line l) = String.eqb l "/quit".
Proof.
  intros H. apply eq_true_iff_eq. unfold ClientTest.quits.
  rewrite chomp_line by exact H.
  rewrite Z.eqb_eq, strcmp_zero, cstr_append_NUL, String.eqb_eq by exact H.
  reflexivity.
Qed.

(** ** What the clients send *)

Lemma cl_fgets_line (l rest : string) (c : client) (size : Z) :
  cl_stdin c = String.append (line l) rest ->
  no_newline l = true ->
  (String.length l < Z.to_nat (size - 1))%nat ->
  cl_fgets size c = (Some (line l), set_cl_stdin rest (cl_syscall (Fgets size) c)).
Proof.
  intros Hin Hnl Hlen. unfold cl_fgets. rewrite Hin.
  rewrite (fgets_take_line l rest Hnl _ Hlen).
  destruct l; reflexivity.
Qed.

(** What client_test.c does with a typed line that fits its buffer. *)
Lemma test_handle_input_line (o : oracle) (readfds : fd_set) (c : client)
    (l rest : string) :
  FD_ISSET STDIN_FILENO readfds = true ->
  cl_stdin c = String.append (line l) rest ->
  no_NUL l = true ->
  no_newline l = true ->
  (String.length l <= 254)%nat ->
  ClientTest.handle_input o readfds c =
    let c1 := set_cl_stdin rest (cl_syscall (Fgets 256) c) in
    if String.eqb l "/quit" then
      (true, set_running 0 (cl_emit MsgQuitCommand c1))
    else if (0 <? String.length l)%nat then
      let r := send_result o (S (cl_clock c)) (Z.of_nat (String.length l)) in
      let c2 := cl_syscall (Send (sockfd c) (bytes_of l) r) c1 in
      if r =? -1 then (true, set_running 0 (cl_emit MsgPerrorSend c2))
      else (false, cl_emit MsgPrompt (cl_emit (MsgSent r) c2))
    else (false, cl_emit MsgPrompt c1).
Proof.
  intros Hready Hin HNUL Hnl Hlen.
  unfold ClientTest.handle_input. rewrite Hready, cbind_run.
  rewrite (cl_fgets_line l rest c ClientTest.MAX_MESSAGE_LENGTH Hin Hnl)
    by (change (Z.to_nat (ClientTest.MAX_MESSAGE_LENGTH - 1)) with 255%nat; lia).
  cbn [fst snd]. rewrite quits_line by exact HNUL.
  destruct (String.eqb l "/quit"); [reflexivity|].
  rewrite has_newline_line, strlen_line, chomp_line by exact HNUL.
  replace (S (String.length l) - 1)%nat with (String.length l) by lia.
  cbv zeta. destruct (0 <? String.length l)%nat; [|reflexivity].
  rewrite cbind_run. cbn [cgets fst snd]. rewrite cbind_run.
  unfold cl_send. cbn [fst snd].
  rewrite Nat2Z.id, bytes_of_append_front.
  change (cl_clock (set_cl_stdin rest (cl_syscall (Fgets ClientTest.MAX_MESSAGE_LENGTH) c)))
    with (S (cl_clock c)).
  destruct (_ =? -1); reflexivity.
Qed.

(** X17: client_test.c takes a typed line of at most 254 characters, read
    from its standard input by the one [fgets] of the turn, for its quit
    command exactly when the line without its newline is [/quit]: nothing
    may precede or follow it. On that line the client sends nothing, says
    that it disconnects, clears [running] and leaves its loop. (A longer
    line does not fit the buffer and is read in pieces, each judged on its
    own.) *)
Theorem client_test_quit_exact (o : oracle) (readfds : fd_set) (c : client)
    (l rest : string) :
  FD_ISSET STDIN_FILENO readfds = true ->
  cl_stdin c = String.append (line l) rest ->
  no_NUL l = true ->
  no_newline l = true ->
  (String.length l <= 254)%nat ->
  let c' := cexec (ClientTest.handle_input o readfds) c in
  (In MsgQuitCommand (couts_of (ClientTest.handle_input o readfds) c)
   <-> l = "/quit"%string)
  /\ (l = "/quit"%string ->
        fst (ClientTest.handle_input o readfds c) = true
        /\ running c' = 0
        /\ cevents_of (ClientTest.handle_input o readfds) c = [Fgets 256]
        /\ couts_of (ClientTest.handle_input o readfds) c = [MsgQuitCommand]
        /\ cl_stdin c' = rest).
Proof.
  intros Hready Hin HNUL Hnl Hlen. cbv zeta.
  pose proof (test_handle_input_line o readfds c l rest Hready Hin HNUL Hnl Hlen)
    as Hrun. cbv zeta in Hrun.
  unfold couts_of, cevents_of, cexec. rewrite Hrun.
  destruct (String.eqb_spec l "/quit") as [Hq|Hq].
  - cbn. rewrite !drop_app_length. split; [split; [auto | now left]|].
    intros _. repeat split; reflexivity.
  - split; [|intros Hq'; contradiction]. split; [|intros Hq'; contradiction].
    intros Hout. exfalso.
    destruct (0 <? String.length l)%nat; [destruct (_ =? -1)|];
      cbn in Hout; rewrite <- ?app_assoc, drop_app_length in Hout;
      cbn in Hout; intuition discriminate.
Qed.

(** X18: a line typed into client_test.c that fits its buffer and is not the
    quit command is sent as it is, without its newline, in one [send]; an
    empty line is not sent at all. The loop is left only if that [send]
    fails. *)
Theorem client_test_sends_line (o : oracle) (readfds : fd_set) (c : client)
    (l rest : string) :
  FD_ISSET STDIN_FILENO readfds = true ->
  cl_stdin c = String.append (line l) rest ->
  no_NUL l = true ->
  no_newline l = true ->
  (String.length l <= 254)%nat ->
  l <> "/quit"%string ->
  let r := send_result o (S (cl_clock c)) (Z.of_nat (String.length l)) in
  let sent := (0 <? String.length l)%nat in
  cevents_of (ClientTest.handle_input o readfds) c =
    Fgets 256 :: (if sent then [Send (sockfd c) (bytes_of l) r] else [])
  /\ cl_stdin (cexec (ClientTest.handle_input o readfds) c) = rest
  /\ fst (ClientTest.handle_input o readfds c) = sent && (r =? -1).
Proof.
  intros Hready Hin HNUL Hnl Hlen Hq. cbv zeta.
  assert (Hrun : ClientTest.handle_input o readfds c =
    let c1 := set_cl_stdin rest (cl_syscall (Fgets 256) c) in
    if (0 <? String.length l)%nat then
      let r := send_result o (S (cl_clock c)) (Z.of_nat (String.length l)) in
      let c2 := cl_syscall (Send (sockfd c) (bytes_of l) r) c1 in
      if r =? -1 then (true, set_running 0 (cl_emit MsgPerrorSend c2))
      else (false, cl_emit MsgPrompt (cl_emit (MsgSent r) c2))
    else (false, cl_emit MsgPrompt c1)).
  { unfold ClientTest.handle_input. rewrite Hready, cbind_run.
    rewrite (cl_fgets_line l rest c ClientTest.MAX_MESSAGE_LENGTH Hin Hnl)
      by (change (Z.to_nat (ClientTest.MAX_MESSAGE_LENGTH - 1)) with 255%nat; lia).
    cbn [fst snd].
    assert (Hquit : ClientTest.quits (line l) = false).
    { apply not_true_is_false. unfold ClientTest.quits.
      rewrite chomp_line by exact HNUL.
      rewrite Z.eqb_eq, strcmp_zero, cstr_append_NUL by exact HNUL.
      exact Hq. }
    rewrite Hquit, has_newline_line, strlen_line, chomp_line by exact HNUL.
    replace (S (String.length l) - 1)%nat with (String.length l) by lia.
    cbv zeta. destruct (0 <? String.length l)%nat; [|reflexivity].
    rewrite cbind_run. cbn [cgets fst snd]. rewrite cbind_run.
    unfold cl_send. cbn [fst snd].
    rewrite Nat2Z.id, bytes_of_append_front.
    change (cl_clock (set_cl_stdin rest (cl_syscall (Fgets ClientTest.MAX_MESSAGE_LENGTH) c)))
      with (S (cl_clock c)).
    destruct (_ =? -1); reflexivity. }
  unfold cevents_of, cexec. rewrite Hrun. cbv zeta.
  destruct (0 <? String.length l)%nat; [destruct (_ =? -1)|];
    cbn; rewrite <- ?app_assoc, drop_app_length; repeat split; reflexivity.
Qed.

(** X19: client1.c sends every typed line that fits its buffer as it is,
    without its newline, in one [send] of as many bytes as the line has, an
    empty line included (a [send] of no byte); it never leaves its loop on a
    line, and reports the send as failed or as partial. *)
Theorem client1_sends_line (o : oracle) (readfds : fd_set) (c : client)
    (l rest : string) :
  FD_ISSET STDIN_FILENO readfds = true ->
  cl_stdin c = String.append (line l) rest ->
  no_NUL l = true ->
  no_newline l = true ->
  (String.length l <= 254)%nat ->
  let n := Z.of_nat (String.length l) in
  let r := send_result o (S (cl_clock c)) n in
  cevents_of (Client1.handle_input o readfds) c =
    [Fgets 256; Send (sockfd c) (bytes_of l) r]
  /\ couts_of (Client1.handle_input o readfds) c =
       [if r =? -1 then MsgPerrorSend else MsgSendWarning r (n + 2)]
  /\ cl_stdin (cexec (Client1.handle_input o readfds) c) = rest
  /\ fst (Client1.handle_input o readfds c) = false.
Proof.
  intros Hready Hin HNUL Hnl Hlen. cbv zeta.
  set (n := Z.of_nat (String.length l)).
  set (r := send_result o (S (cl_clock c)) n).
  assert (Hrun : Client1.handle_input o readfds c =
    let c1 := set_cl_stdin rest (cl_syscall (Fgets 256) c) in
    let c2 := cl_syscall (Send (sockfd c) (bytes_of l) r) c1 in
    (false, cl_emit (if r =? -1 then MsgPerrorSend else MsgSendWarning r (n + 2)) c2)).
  { unfold Client1.handle_input. rewrite Hready, cbind_run.
    rewrite (cl_fgets_line l rest c Client1.MAX_MESSAGE_LENGTH Hin Hnl)
      by (change (Z.to_nat (Client1.MAX_MESSAGE_LENGTH - 1)) with 255%nat; lia).
    cbn [fst snd]. rewrite strlen_line, chomp_line by exact HNUL.
    rewrite strlen_append by exact HNUL. cbn [strlen]. rewrite Ascii.eqb_refl.
    rewrite Nat.add_0_r. cbv zeta.
    rewrite cbind_run. cbn [cgets fst snd]. rewrite cbind_run.
    unfold cl_send. cbn [fst snd].
    rewrite Nat2Z.id, bytes_of_append_front.
    change (cl_clock (set_cl_stdin rest (cl_syscall (Fgets Client1.MAX_MESSAGE_LENGTH) c)))
      with (S (cl_clock c)).
    fold n r. rewrite cbind_run.
    assert (Hlt : r < Z.of_nat (S (String.length l)) + 1).
    { pose proof (send_result_le o (S (cl_clock c)) n ltac:(lia)). unfold r, n in *. lia. }
    replace (Z.of_nat (S (String.length l)) + 1) with (n + 2) in * by (unfold n; lia).
    destruct (r =? -1); [reflexivity|].
    replace (r <? n + 2) with true by (symmetry; now apply Z.ltb_lt).
    reflexivity. }
  unfold cevents_of, couts_of, cexec. rewrite Hrun. cbv zeta.
  cbn. rewrite <- ?app_assoc, !drop_app_length. repeat split; reflexivity.
Qed.

(** ** How the clients' loops end *)

(** X20: when the server closes the connection or the receive fails while
    client_test.c waits, the client clears [running] and its loop ends with
    that turn: after the [select] and the [recv] it makes no further call in
    the loop. *)
Theorem client_test_server_gone (o : oracle) (max_fd : Z) (c : client)
    (ready : list Z) (n : nat) :
  running c <> 0 ->
  sockfd c <> STDIN_FILENO ->
  select_res o (cl_clock c) = SelReady ready ->
  FD_ISSET (sockfd c) ready = true ->
  FD_ISSET STDIN_FILENO ready = false ->
  recv_count (recv_res o (S (cl_clock c))) (ClientTest.BUF_SIZE - 1) <= 0 ->
  let r := recv_count (recv_res o (S (cl_clock c))) (ClientTest.BUF_SIZE - 1) in
  fst (ClientTest.loop o max_fd (S n) c) = true
  /\ running (cexec (ClientTest.loop o max_fd (S n)) c) = 0
  /\ cevents_of (ClientTest.loop o max_fd (S n)) c =
       [Select (max_fd + 1); Recv (sockfd c) (ClientTest.BUF_SIZE - 1) r].
Proof.
  intros Hrun Hfd Hsel Hsock Hstdin Hrecv. cbv zeta.
  set (r := recv_count (recv_res o (S (cl_clock c))) (ClientTest.BUF_SIZE - 1)) in *.
  set (c1 := cl_syscall (Select (max_fd + 1)) c).
  set (c2 := cl_syscall (Recv (sockfd c) (ClientTest.BUF_SIZE - 1) r) c1).
  assert (Hiter : ClientTest.iteration o max_fd c =
            (false, set_running 0
                      (cl_emit (if r =? 0 then MsgServerClosed else MsgPerrorRecv) c2))).
  { unfold ClientTest.iteration. rewrite cbind_run. cbn [cgets fst snd].
    rewrite cbind_run. unfold cl_select. rewrite Hsel.
    unfold FD_SET, FD_ZERO. cbn [app List.filter]. rewrite Hstdin, Hsock.
    cbn [fst snd]. rewrite cbind_run. cbn [cgets fst snd].
    replace (_ <? 0) with false
      by (symmetry; apply Z.ltb_ge; apply Nat2Z.is_nonneg).
    cbn [andb]. rewrite cbind_run. unfold ClientTest.handle_server.
    rewrite cbind_run. cbn [cgets fst snd].
    change (sockfd (cl_syscall (Select (max_fd + 1)) c)) with (sockfd c).
    unfold FD_ISSET at 1. cbn [existsb]. rewrite Z.eqb_refl. cbn [orb].
    rewrite cbind_run. unfold cl_recv. cbn [fst snd].
    change (cl_clock (cl_syscall (Select (max_fd + 1)) c)) with (S (cl_clock c)).
    fold r c1 c2.
    assert (Hin : forall c' : client,
               ClientTest.handle_input o [sockfd c] c' = (false, c')).
    { intros c'. unfold ClientTest.handle_input, FD_ISSET. cbn [existsb].
      replace (STDIN_FILENO =? sockfd c) with false
        by (symmetry; apply Z.eqb_neq; congruence).
      reflexivity. }
    destruct (r =? 0) eqn:H0.
    - rewrite cbind_run. cbn [cprintf cmodify fst snd]. apply Hin.
    - apply Z.eqb_neq in H0.
      replace (r <? 0) with true by (symmetry; apply Z.ltb_lt; lia).
      rewrite cbind_run. cbn [cprintf cmodify fst snd]. apply Hin. }
  assert (Hloop : ClientTest.loop o max_fd (S n) c =
            (true, set_running 0
                     (cl_emit (if r =? 0 then MsgServerClosed else MsgPerrorRecv) c2))).
  { cbn [ClientTest.loop]. rewrite cbind_run. cbn [cgets fst snd].
    replace (running c =? 0) with false by (symmetry; now apply Z.eqb_neq).
    rewrite cbind_run, Hiter. cbn [fst snd].
    destruct n; cbn [ClientTest.loop]; rewrite cbind_run; reflexivity. }
  unfold cevents_of, cexec. rewrite Hloop. cbn [fst snd].
  repeat split. cbn. now rewrite <- app_assoc, drop_app_length.
Qed.

(** X21: at the end of the keyboard input client1.c leaves its loop: the
    [fgets] that finds nothing is the last call of the loop, and the client
    says that its input was closed. *)
Theorem client1_end_of_input (o : oracle) (max_fd : Z) (c : client)
    (ready : list Z) (n : nat) :
  running c <> 0 ->
  select_res o (cl_clock c) = SelReady ready ->
  FD_ISSET STDIN_FILENO ready = true ->
  cl_stdin c = EmptyString ->
  fst (Client1.loop o max_fd (S n) c) = true
  /\ cevents_of (Client1.loop o max_fd (S n)) c =
       [Select (max_fd + 1); Fgets Client1.MAX_MESSAGE_LENGTH]
  /\ couts_of (Client1.loop o max_fd (S n)) c = [MsgPrompt; MsgInputClosed].
Proof.
  intros Hrun Hsel Hstdin Hin.
  assert (Hinput : forall (readfds : fd_set) (c1 : client),
             FD_ISSET STDIN_FILENO readfds = true ->
             cl_stdin c1 = EmptyString ->
             running c1 <> 0 ->
             Client1.handle_input o readfds c1 =
               (true, cl_emit MsgInputClosed
                        (cl_syscall (Fgets Client1.MAX_MESSAGE_LENGTH) c1))).
  { intros readfds c1 Hr Hi Hn. unfold Client1.handle_input.
    rewrite Hr, cbind_run. unfold cl_fgets. rewrite Hi. cbn [fst snd].
    rewrite cbind_run. cbn [cgets fst snd].
    change (running (cl_syscall ?e c1)) with (running c1).
    replace (running c1 =? 0) with false by (symmetry; now apply Z.eqb_neq).
    reflexivity. }
  assert (Hloop : Client1.loop o max_fd (S n) c =
            (true, cl_emit MsgInputClosed
                     (cl_syscall (Fgets Client1.MAX_MESSAGE_LENGTH)
                        (cl_syscall (Select (max_fd + 1)) (cl_emit MsgPrompt c))))).
  { cbn [Client1.loop]. rewrite cbind_run. cbn [cgets fst snd].
    replace (running c =? 0) with false by (symmetry; now apply Z.eqb_neq).
    rewrite cbind_run. unfold Client1.iteration.
    rewrite cbind_run. cbn [cgets fst snd].
    do 2 rewrite cbind_run. cbn [cprintf cmodify fst snd].
    unfold cl_select. change (cl_clock (cl_emit MsgPrompt c)) with (cl_clock c).
    rewrite Hsel. unfold FD_SET, FD_ZERO. cbn [app List.filter]. rewrite Hstdin.
    cbn [fst snd]. rewrite cbind_run. cbn [cgets fst snd].
    replace (_ <? 0) with false
      by (symmetry; apply Z.ltb_ge; apply Nat2Z.is_nonneg).
    cbn [andb]. rewrite cbind_run.
    rewrite Hinput; [reflexivity | | exact Hin | exact Hrun].
    unfold FD_ISSET. cbn [existsb]. now rewrite Z.eqb_refl. }
  unfold cevents_of, couts_of, cexec. rewrite Hloop. cbn [fst snd].
  repeat split; cbn; now rewrite <- app_assoc, drop_app_length.
Qed.

(** ** Teardown of the server *)

Lemma occupied_released (cs : list Z) : occupied (released cs) = [].
Proof.
  unfold occupied, released. induction cs as [|fd cs IH]; [reflexivity|].
  cbn [map]. destruct (0 <? fd) eqn:H.
  - rewrite filter_cons_False by lia. exact IH.
  - apply Z.ltb_ge in H. rewrite filter_cons_False by lia. exact IH.
Qed.

Lemma cleanup_from_table (n : nat) :
  forall (i : nat) (s : state),
    client_socket (exec (cleanup_from n i) s) =
      take i (client_socket s) ++ released (take n (drop i (client_socket s)))
      ++ drop (i + n) (client_socket s).
Proof.
  induction n as [|n IH]; intros i s.
  - change (exec (cleanup_from 0 i) s) with s. rewrite take_0. cbn [released map app].
    now rewrite Nat.add_0_r, take_drop.
  - cbn [cleanup_from]. rewrite exec_bind.
    change (read_slot i s) with (slot (client_socket s) i, s). cbn [fst snd].
    rewrite exec_bind.
    destruct (client_socket s !! i) as [fd|] eqn:Hi.
    + rewrite (slot_Some _ _ _ Hi), (drop_S _ _ _ Hi), firstn_cons. cbn [released map].
      pose proof (lookup_lt_Some _ _ _ Hi) as Hlt.
      destruct (0 <? fd) eqn:Hpos.
      * rewrite IH. cbn.
        rewrite !drop_insert_lt by lia.
        rewrite (take_S_r (<[i:=0]> (client_socket s)) i 0)
          by (now apply list_lookup_insert_eq).
        rewrite take_insert_ge by lia.
        rewrite <- app_assoc. cbn. now rewrite Nat.add_succ_r.
      * rewrite IH. cbn.
        rewrite (take_S_r _ _ _ Hi), <- app_assoc. cbn. now rewrite Nat.add_succ_r.
    + rewrite (slot_None _ _ Hi). cbn [Z.ltb Z.compare].
      apply lookup_ge_None_1 in Hi. rewrite IH. cbn.
      rewrite !drop_ge by lia. rewrite !take_nil, !take_ge by lia.
      reflexivity.
Qed.

(** X3: [cleanup_and_exit], the teardown behind [sigint_handler], closes the
    listening descriptor, then the descriptor of every occupied slot in slot
    order, and calls [exit(0)]; it leaves no slot of the table occupied. *)
Theorem cleanup_and_exit_releases_all (s : state) :
  length (client_socket s) = MAX_CLIENTS ->
  listener_sfd s <> -1 ->
  let s' := exec cleanup_and_exit s in
  events_of cleanup_and_exit s =
    Close (listener_sfd s) :: map Close (occupied (client_socket s)) ++ [Exit 0]
  /\ exited s' = Some 0
  /\ client_socket s' = released (client_socket s)
  /\ occupied_count (client_socket s') = 0%nat.
Proof.
  intros Hlen Hl. cbv zeta.
  destruct (cleanup_and_exit_teardown s Hlen Hl) as [Hev Hex].
  split; [exact Hev|]. split; [exact Hex|].
  assert (Hcs : client_socket (exec cleanup_and_exit s) = released (client_socket s)).
  { set (s1 := emit (LogClosedListener (listener_sfd s))
                 (syscall (Close (listener_sfd s)) (emit LogShutdownInitiated s))).
    assert (Hexec : exec cleanup_and_exit s =
              set_exited 0 (syscall (Exit 0)
                (emit LogCleanupComplete (exec (cleanup_from MAX_CLIENTS 0) s1)))).
    { unfold cleanup_and_exit. rewrite !exec_bind. cbn [printf modify gets fst snd].
      change (listener_sfd (emit LogShutdownInitiated s)) with (listener_sfd s).
      replace (listener_sfd s =? -1) with false by (symmetry; now apply Z.eqb_neq).
      reflexivity. }
    rewrite Hexec. cbn [client_socket set_exited syscall tick record emit].
    rewrite cleanup_from_table.
    change (client_socket s1) with (client_socket s).
    rewrite drop_0, take_0, take_ge, drop_ge by lia. cbn [app]. now rewrite app_nil_r. }
  split; [exact Hcs|]. unfold occupied_count. now rewrite Hcs, occupied_released.
Qed.

(** ** What a broadcast does to the table *)

Lemma closes_app (l1 l2 : list event) : closes (l1 ++ l2) = closes l1 ++ closes l2.
Proof. apply flat_map_app. Qed.

Lemma slot_pos (cs : list Z) (i : nat) : 0 < slot cs i -> cs !! i = Some (slot cs i).
Proof.
  unfold slot. destruct (cs !! i); cbn; [reflexivity | lia].
Qed.

Lemma broadcast_from_outcome (o : oracle) (sender_fd : Z) (message : list byte)
    (len : Z) (n : nat) :
  forall (i : nat) (s : state),
    let s' := exec (broadcast_from o n i sender_fd message len) s in
    (client_socket s' = client_socket s /\ closes (trace s') = closes (trace s))
    \/ exists (j : nat) (fd : Z),
         client_socket s !! j = Some fd /\ 0 < fd /\ fd <> sender_fd
         /\ client_socket s' = <[j:=0]> (client_socket s)
         /\ closes (trace s') = closes (trace s) ++ [fd].
Proof.
  induction n as [|n IH]; intros i s; cbv zeta; [left; split; reflexivity|].
  rewrite broadcast_from_step. cbv zeta.
  destruct (slot (client_socket s) i <=? 0) eqn:Hle;
    [exact (IH (S i) (emit (LogHasBytes len) s))|].
  destruct (slot (client_socket s) i =? sender_fd) eqn:Heq;
    [exact (IH (S i) (emit (LogHasBytes len) s))|].
  apply Z.leb_gt in Hle. apply Z.eqb_neq in Heq.
  destruct (send_result o (clock s) len =? -1).
  - right. exists i, (slot (client_socket s) i).
    split; [now apply slot_pos|]. repeat split; try assumption.
    cbn. rewrite !closes_app. cbn. now rewrite app_nil_r.
  - match goal with
    | |- context [exec _ ?s1] =>
        destruct (IH (S i) s1) as [[Hcs Hcl] | (j & fd & Hj & Hpos & Hne & Hcs & Hcl)]
    end.
    + left. split; [exact Hcs|]. rewrite Hcl. cbn. rewrite closes_app. cbn.
      now rewrite app_nil_r.
    + right. exists j, fd. repeat split; try assumption.
      rewrite Hcl. cbn. rewrite closes_app. cbn. now rewrite app_nil_r.
Qed.

(** X6: a broadcast releases one slot at most. Either it leaves the table as
    it was and closes nothing, or it sets to 0 exactly one slot, which was
    occupied by a descriptor other than the sender's, and closes exactly that
    descriptor; the sender's slot is never released by its own broadcast. *)
Theorem broadcast_releases_at_most_one (o : oracle) (s : state) (sender_fd : Z)
    (message : list byte) (len : Z) :
  let s' := exec (broadcast_message o sender_fd message len) s in
  let closed := closes (events_of (broadcast_message o sender_fd message len) s) in
  (client_socket s' = client_socket s /\ closed = [])
  \/ exists (j : nat) (fd : Z),
       client_socket s !! j = Some fd /\ 0 < fd /\ fd <> sender_fd
       /\ client_socket s' = <[j:=0]> (client_socket s)
       /\ closed = [fd].
Proof.
  cbv zeta.
  destruct (broadcast_message_trace o sender_fd message len s) as (evs & Htr & _).
  rewrite (events_of_app _ s evs Htr).
  pose proof (broadcast_from_outcome o sender_fd message len MAX_CLIENTS 0%nat
                (emit LogBroadcastCalled s)) as Hout.
  cbv zeta in Hout. rewrite <- broadcast_message_exec in Hout.
  change (client_socket (emit LogBroadcastCalled s)) with (client_socket s) in Hout.
  change (trace (emit LogBroadcastCalled s)) with (trace s) in Hout.
  rewrite Htr, closes_app in Hout.
  destruct Hout as [[Hcs Hcl] | (j & fd & Hj & Hpos & Hne & Hcs & Hcl)].
  - left. split; [exact Hcs|].
    rewrite <- (app_nil_r (closes (trace s))) in Hcl at 2.
    now apply app_inv_head in Hcl.
  - right. exists j, fd. repeat split; try assumption.
    now apply app_inv_head in Hcl.
Qed.

(** ** The descriptor set handed to select *)

Lemma occupied_app (l1 l2 : list Z) : occupied (l1 ++ l2) = occupied l1 ++ occupied l2.
Proof. apply filter_app. Qed.

Lemma occupied_single (c : Z) : occupied [c] = if 0 <? c then [c] else [].
Proof.
  unfold occupied. destruct (Z.ltb_spec 0 c) as [H|H].
  - now rewrite filter_cons_True by exact H.
  - now rewrite filter_cons_False by lia.
Qed.

Lemma occupied_take_S (cs : list Z) (n i : nat) :
  occupied (take (S n) (drop i cs)) =
    occupied [slot cs i] ++ occupied (take n (drop (S i) cs)).
Proof.
  destruct (cs !! i) as [fd|] eqn:Hi.
  - rewrite (slot_Some _ _ _ Hi), (drop_S _ _ _ Hi), firstn_cons.
    now rewrite <- occupied_app.
  - rewrite (slot_None _ _ Hi). apply lookup_ge_None_1 in Hi.
    rewrite !drop_ge by lia. rewrite !take_nil. now rewrite occupied_single.
Qed.

(** One turn of the loop that fills the set. *)
Lemma populate_from_step (n i : nat) (readfds : fd_set) (s : state) :
  let c := slot (client_socket s) i in
  let s1 := if 0 <? c then emit (LogPopulated i c) s else s in
  let s2 := if max_fd s <? c then set_max_fd c s1 else s1 in
  populate_from (S n) i readfds s =
    populate_from n (S i) (readfds ++ occupied [c]) s2.
Proof.
  cbv zeta. rewrite occupied_single. cbn [populate_from]. run.
  destruct (0 <? slot (client_socket s) i); cbn;
    destruct (max_fd s <? slot (client_socket s) i); cbn;
    unfold FD_SET; now rewrite ?app_nil_r.
Qed.

Lemma populate_from_set (n : nat) :
  forall (i : nat) (readfds : fd_set) (s : state),
    Forall (fun fd => fd <= max_fd s) readfds ->
    let r := populate_from n i readfds s in
    fst r = readfds ++ occupied (take n (drop i (client_socket s)))
    /\ Forall (fun fd => fd <= max_fd (snd r)) (fst r)
    /\ max_fd s <= max_fd (snd r).
Proof.
  induction n as [|n IH]; intros i readfds s Hall; cbv zeta.
  - cbn [populate_from ret fst snd]. rewrite take_0.
    change (occupied []) with (@nil Z). rewrite app_nil_r.
    repeat split; [exact Hall | lia].
  - rewrite populate_from_step. cbv zeta. rewrite occupied_take_S, app_assoc.
    set (c := slot (client_socket s) i).
    set (s2 := if max_fd s <? c then _ else _).
    assert (Hcs : client_socket s2 = client_socket s)
      by (subst s2; destruct (max_fd s <? c), (0 <? c); reflexivity).
    assert (Hmax : max_fd s <= max_fd s2 /\ c <= max_fd s2).
    { subst s2. destruct (Z.ltb_spec (max_fd s) c), (0 <? c); cbn; lia. }
    specialize (IH (S i) (readfds ++ occupied [c]) s2). cbv zeta in IH.
    rewrite Hcs in IH. destruct IH as (H1 & H2 & H3).
    + apply Forall_app. split.
      * eapply Forall_impl; [exact Hall | cbn; intros; lia].
      * rewrite occupied_single. destruct (0 <? c); [|constructor].
        apply Forall_singleton. lia.
    + repeat split; [exact H1 | exact H2 | lia].
Qed.

(** X7: the set handed to [select] holds standard input, the listener and
    the occupied slots, in this order, and nothing else; the first argument
    of [select], [max_fd + 1], is above every descriptor of the set, as the
    call requires, provided [max_fd] was not below the listener and standard
    input before. Filling the set never lowers [max_fd] and leaves the table
    as it is. *)
Theorem build_readfds_covered (s : state) :
  length (client_socket s) = MAX_CLIENTS ->
  STDIN_FILENO <= max_fd s ->
  listener_sfd s <= max_fd s ->
  let readfds := fst (build_readfds s) in
  let s' := exec build_readfds s in
  readfds = STDIN_FILENO :: listener_sfd s :: occupied (client_socket s)
  /\ Forall (fun fd => fd < max_fd s' + 1) readfds
  /\ max_fd s <= max_fd s'
  /\ client_socket s' = client_socket s.
Proof.
  intros Hlen Hin Hl. cbv zeta.
  destruct (populate_from_set MAX_CLIENTS 0
              (FD_SET (listener_sfd s) (FD_SET STDIN_FILENO FD_ZERO)) s)
    as (H1 & H2 & H3).
  { unfold FD_SET, FD_ZERO. cbn [app]. repeat constructor; assumption. }
  destruct (populate_from_frame MAX_CLIENTS 0%nat
              (FD_SET (listener_sfd s) (FD_SET STDIN_FILENO FD_ZERO)) s)
    as (H4 & _).
  change (populate_from MAX_CLIENTS 0
            (FD_SET (listener_sfd s) (FD_SET STDIN_FILENO FD_ZERO)) s)
    with (build_readfds s) in H1, H2, H3.
  change (exec (populate_from _ _ _) s) with (exec build_readfds s) in H4.
  rewrite drop_0, (take_ge (client_socket s)) in H1 by lia.
  repeat split.
  - exact H1.
  - eapply Forall_impl; [exact H2 | intros fd Hfd; unfold exec; cbv beta in *; lia].
  - exact H3.
  - exact H4.
Qed.

(** ** The command read from the stream *)

(** Reading at least as many characters as a literal without a newline has
    does not change whether the literal begins the text. *)
Lemma prefix_fgets_take (lit : string) :
  no_newline lit = true ->
  forall (n : nat) (input : string),
    (String.length lit <= n)%nat ->
    String.prefix lit (fst (fgets_take n input)) = String.prefix lit input.
Proof.
  induction lit as [|a lit IH]; intros Hlit n input Hn;
    [destruct (fst (fgets_take n input)); now destruct input|].
  cbn in Hlit. apply andb_true_iff in Hlit as [Ha Hlit]. apply negb_true_iff in Ha.
  destruct n as [|n]; [cbn in Hn; lia|]. cbn in Hn.
  destruct input as [|c rest]; [reflexivity|].
  cbn [fgets_take]. destruct (Ascii.eqb c newline) eqn:Hc.
  - apply Ascii.eqb_eq in Hc. subst c. cbn [fst String.prefix].
    destruct (ascii_dec a newline) as [->|_]; [|reflexivity].
    now rewrite Ascii.eqb_refl in Ha.
  - specialize (IH Hlit n rest). destruct (fgets_take n rest) as [l r].
    cbn [fst String.prefix] in *. destruct (ascii_dec a c); [apply IH; lia | reflexivity].
Qed.

(** X8: with standard input ready and not at its end, the server takes at
    least one and at most 15 characters off the stream with one [fgets], and
    answers by the first four characters that were waiting: the quit notice
    when they are [quit], "Command ignored." otherwise. What follows the 15th
    character of a long line stays in the stream for a later turn; the table
    is not touched and the process goes on. *)
Theorem handle_stdin_reads_stream (readfds : fd_set) (s : state) :
  FD_ISSET STDIN_FILENO readfds = true ->
  stdin s <> EmptyString ->
  let s' := exec (handle_stdin readfds) s in
  (exists cmd_buffer : string,
      stdin s = String.append cmd_buffer (stdin s')
      /\ (1 <= String.length cmd_buffer <= 15)%nat)
  /\ out s' = out s ++ [if String.prefix "quit" (stdin s)
                         then LogQuitReceived else LogCommandIgnored]
  /\ events_of (handle_stdin readfds) s = [Fgets 16]
  /\ client_socket s' = client_socket s
  /\ exited s' = exited s.
Proof.
  intros Hready Hin. cbv zeta.
  destruct (stdin s) as [|c rest] eqn:Hs; [congruence|].
  pose proof (fgets_take_split 15 (String c rest)) as [Hsplit Hlen].
  pose proof (fgets_take_nonempty 14 c rest) as Hone.
  pose proof (prefix_fgets_take "quit" eq_refl 15 (String c rest)) as Hpre.
  assert (Hfgets : sys_fgets 16 s =
            (Some (fst (fgets_take 15 (String c rest))),
             set_stdin (snd (fgets_take 15 (String c rest))) (syscall (Fgets 16) s))).
  { unfold sys_fgets. rewrite Hs.
    change (Z.to_nat (16 - 1)) with 15%nat.
    now destruct (fgets_take 15 (String c rest)). }
  assert (Hexec : exec (handle_stdin readfds) s =
            emit (if String.prefix "quit" (String c rest)
                  then LogQuitReceived else LogCommandIgnored)
              (set_stdin (snd (fgets_take 15 (String c rest)))
                 (syscall (Fgets 16) s))).
  { unfold handle_stdin. rewrite Hready, exec_bind, Hfgets. cbn [fst snd].
    rewrite is_quit_prefix, Hpre by (cbn; lia).
    destruct (String.prefix "quit" (String c rest)); reflexivity. }
  split; [|split; [|split; [|split]]].
  - exists (fst (fgets_take 15 (String c rest))). rewrite Hexec. split.
    + now rewrite <- Hsplit at 1.
    + split; [exact Hone | exact Hlen].
  - now rewrite Hexec.
  - apply events_of_app. now rewrite Hexec.
  - now rewrite Hexec.
  - now rewrite Hexec.
Qed.

(** ** The life of the server *)

(** X2: once the listener is set up, the server's [main] never ends the
    process by itself, whatever arrives on the sockets and on standard
    input, a [quit] line included, and however many turns the loop takes:
    [running] is never cleared and no path of the loop calls [exit] or
    returns, so the statements after the loop are never reached. The
    process can only be ended from outside, by a signal at its default
    action (the SIGPIPE of a [send] to a closed peer among them), which is
    no part of these runs: here every system call returns. *)
Theorem main_never_exits (o : oracle) (lfd : Z) (turns : nat) (input : string) :
  lfd <> 0 ->
  exited (exec (main o lfd turns) (boot input)) = None.
Proof.
  intros Hlfd. unfold main. do 2 rewrite exec_bind. cbn [modify fst snd].
  replace (lfd =? 0) with false by (symmetry; now apply Z.eqb_neq).
  rewrite exec_bind. cbn [modify fst snd].
  now apply main_loop_keeps_running.
Qed.

(** ** Witnesses of the further properties *)

Lemma handle_listener_table_witness :
  let o := scripted [AAccept 6] in
  let s := serving table_two "" in
  client_socket (exec (handle_listener o [3]) s) = [4; 5; 6; 0; 0; 0; 0; 0; 0; 0].
Proof.
  apply (handle_listener_table (scripted [AAccept 6]) [3] (serving table_two "") 6).
  - reflexivity.
  - reflexivity.
  - reflexivity.
  - lia.
Defined.

Lemma cleanup_and_exit_releases_all_witness :
  let s := serving table_two "" in
  let s' := exec cleanup_and_exit s in
  events_of cleanup_and_exit s = [Close 3; Close 4; Close 5; Exit 0]
  /\ exited s' = Some 0
  /\ client_socket s' = repeat 0 MAX_CLIENTS
  /\ occupied_count (client_socket s') = 0%nat.
Proof.
  apply (cleanup_and_exit_releases_all (serving table_two "")).
  - reflexivity.
  - cbn. lia.
Defined.

Lemma iteration_select_error_witness :
  let o := scripted [ASelect (SelError 9)] in
  let s := serving table_two "" in
  let s' := exec (iteration o) s in
  events_of (iteration o) s = [Select 6]
  /\ last (out s') = Some PerrorSelect
  /\ client_socket s' = table_two
  /\ exited s' = None.
Proof.
  apply (iteration_select_error (scripted [ASelect (SelError 9)])
           (serving table_two "") 9).
  - reflexivity.
  - unfold EINTR. lia.
Defined.

Lemma main_never_exits_witness :
  let o := scripted [ASelect (SelReady [0]); ANone;
                     ASelect (SelReady [3]); AAccept 4] in
  let s' := exec (main o 3 2) (boot (line "quit")) in
  exited s' = None
  /\ In LogQuitReceived (out s')
  /\ trace s' = [Select 4; Fgets 16; Select 4; Accept 3 4].
Proof.
  split.
  - apply (main_never_exits
             (scripted [ASelect (SelReady [0]); ANone;
                        ASelect (SelReady [3]); AAccept 4]) 3 2 (line "quit")).
    lia.
  - vm_compute. split; [auto 20 | reflexivity].
Defined.

Lemma build_readfds_covered_witness :
  let s := serving table_two "" in
  let readfds := fst (build_readfds s) in
  let s' := exec build_readfds s in
  readfds = [0; 3; 4; 5]
  /\ Forall (fun fd => fd < max_fd s' + 1) readfds
  /\ 3 <= max_fd s'
  /\ client_socket s' = table_two.
Proof.
  apply (build_readfds_covered (serving table_two "")).
  - reflexivity.
  - cbn. unfold STDIN_FILENO. lia.
  - cbn. lia.
Defined.

Lemma handle_stdin_reads_stream_witness :
  let s := serving table_two (line "quit the server now") in
  let s' := exec (handle_stdin [0]) s in
  (exists cmd_buffer : string,
      stdin s = String.append cmd_buffer (stdin s')
      /\ (1 <= String.length cmd_buffer <= 15)%nat)
  /\ out s' = [LogQuitReceived]
  /\ events_of (handle_stdin [0]) s = [Fgets 16]
  /\ client_socket s' = table_two
  /\ exited s' = None.
Proof.
  apply (handle_stdin_reads_stream [0] (serving table_two (line "quit the server now"))).
  - reflexivity.
  - discriminate.
Defined.

Lemma setup_listener_success_witness :
  let servinfo := [dead_addr 3; good_addr 4] in
  0 = 0 /\ 0 = 0
  /\ (exists pre p rest,
         servinfo = pre ++ p :: rest /\ Forall unbindable pre
         /\ socket_res p = 4 /\ 4 <> -1
         /\ setsockopt_res p <> -1 /\ bind_res p <> -1)
  /\ still_open (snd (setup_listener 0 servinfo 0)) = [4].
Proof.
  apply (setup_listener_success 0 [dead_addr 3; good_addr 4] 0 4).
  - reflexivity.
  - lia.
Defined.

Lemma server_without_listener_witness :
  let servinfo := [dead_addr 3; no_socket] in
  let s' := exec (server (steady hello) 0 servinfo 0 5) (boot "") in
  fst (setup_listener 0 servinfo 0) = 0
  /\ still_open (snd (setup_listener 0 servinfo 0)) = []
  /\ exited s' = Some 1
  /\ trace s' = [Exit 1].
Proof.
  apply (server_without_listener (steady hello) 0 [dead_addr 3; no_socket] 0 5 "").
  constructor; [right; cbn; split; [lia | reflexivity]|].
  constructor; [left; reflexivity | constructor].
Defined.

Lemma client_test_quit_exact_witness :
  let o := steady hello in
  let c := connected 3 (String.append (line "/quit") (line "hello")) in
  let c' := cexec (ClientTest.handle_input o [0]) c in
  (In MsgQuitCommand (couts_of (ClientTest.handle_input o [0]) c)
   <-> "/quit"%string = "/quit"%string)
  /\ ("/quit"%string = "/quit"%string ->
        fst (ClientTest.handle_input o [0] c) = true
        /\ running c' = 0
        /\ cevents_of (ClientTest.handle_input o [0]) c = [Fgets 256]
        /\ couts_of (ClientTest.handle_input o [0]) c = [MsgQuitCommand]
        /\ cl_stdin c' = line "hello").
Proof.
  apply (client_test_quit_exact (steady hello) [0]
           (connected 3 (String.append (line "/quit") (line "hello")))
           "/quit" (line "hello")).
  - reflexivity.
  - reflexivity.
  - reflexivity.
  - reflexivity.
  - cbn. lia.
Defined.

Lemma client_test_sends_line_witness :
  let o := steady hello in
  let c := connected 3 (line "hello") in
  cevents_of (ClientTest.handle_input o [0]) c =
    [Fgets 256; Send 3 hello 5]
  /\ cl_stdin (cexec (ClientTest.handle_input o [0]) c) = EmptyString
  /\ fst (ClientTest.handle_input o [0] c) = false.
Proof.
  apply (client_test_sends_line (steady hello) [0] (connected 3 (line "hello"))
           "hello" "").
  - reflexivity.
  - reflexivity.
  - reflexivity.
  - reflexivity.
  - cbn. lia.
  - discriminate.
Defined.

Lemma client1_sends_line_witness :
  let o := steady hello in
  let c := connected 3 (line "hello") in
  cevents_of (Client1.handle_input o [0]) c =
    [Fgets 256; Send 3 hello 5]
  /\ couts_of (Client1.handle_input o [0]) c = [MsgSendWarning 5 7]
  /\ cl_stdin (cexec (Client1.handle_input o [0]) c) = EmptyString
  /\ fst (Client1.handle_input o [0] c) = false.
Proof.
  apply (client1_sends_line (steady hello) [0] (connected 3 (line "hello"))
           "hello" "").
  - reflexivity.
  - reflexivity.
  - reflexivity.
  - reflexivity.
  - cbn. lia.
Defined.

Lemma client_test_server_gone_witness :
  let o := scripted [ASelect (SelReady [3]); ARecv (RecvBytes [])] in
  let c := connected 3 "" in
  fst (ClientTest.loop o 3 4 c) = true
  /\ running (cexec (ClientTest.loop o 3 4) c) = 0
  /\ cevents_of (ClientTest.loop o 3 4) c = [Select 4; Recv 3 1023 0].
Proof.
  apply (client_test_server_gone
           (scripted [ASelect (SelReady [3]); ARecv (RecvBytes [])]) 3
           (connected 3 "") [3] 3).
  - cbn. lia.
  - cbn. unfold STDIN_FILENO. lia.
  - reflexivity.
  - reflexivity.
  - reflexivity.
  - vm_compute. discriminate.
Defined.

Lemma client1_end_of_input_witness :
  let o := scripted [ASelect (SelReady [0])] in
  let c := connected 3 "" in
  fst (Client1.loop o 3 4 c) = true
  /\ cevents_of (Client1.loop o 3 4) c = [Select 4; Fgets 256]
  /\ couts_of (Client1.loop o 3 4) c = [MsgPrompt; MsgInputClosed].
Proof.
  apply (client1_end_of_input (scripted [ASelect (SelReady [0])]) 3
           (connected 3 "") [0] 3).
  - cbn. lia.
  - reflexivity.
  - reflexivity.
  - reflexivity.
Defined.
